(** * A shallow embedding of [server.py], a small threaded HTTP file server.

  The development follows the source file top-down:
  - [Activity]: the process-wide [_active] counter, [inc_active],
    [dec_active], [keepalive_timeout], and the start and end events of
    the handler threads that share the counter;
  - [Str]: the Python [str]/[bytes] methods the server calls;
  - [PosixPath]: the [os.path] functions used by [get_file];
  - [Server]: [parse_request], [get_file], [respond] and [handler] over an
    explicit world (socket script, shutdown flag, file system).

  Python [bytes] and [str] are both modelled by [string] (one character
  per byte); integers by [Z] or [nat]. *)

From Stdlib Require Import ZArith Lia Bool.
From Stdlib Require Import Strings.String Strings.Ascii.
From Stdlib Require Import Numbers.DecimalString Numbers.DecimalNat.
From stdpp Require Import base option list strings gmap.

Local Open Scope Z_scope.

(** ** The activity tracker *)

Module Activity.

(** [inc_active]: the new value of [_active], which is also returned. *)
Definition inc_active (active : Z) : Z := active + 1.

(** [dec_active]: [_active = max(0, _active - 1)]. *)
Definition dec_active (active : Z) : Z := Z.max 0 (active - 1).

(** [keepalive_timeout], as a function of the value [n] read from
    [_active] under the lock. *)
Definition keepalive_timeout (n : Z) : Z :=
  if n <? 5 then 10
  else if n <? 20 then 5
  else 2.

(** *** The events on the counter

    Every [handler] thread calls [inc_active] once when it starts and
    [dec_active] once in its [finally] block; in between it only reads
    the counter ([keepalive_timeout]).  Both calls run under
    [active_lock], so the calls of all threads take effect one after
    the other, in some order: a sequence of start and end events. *)

Inductive event :=
| HandlerStart   (* a handler runs [inc_active()] *)
| HandlerEnd.    (* a handler runs [dec_active()] *)

Definition on_event (active : Z) (ev : event) : Z :=
  match ev with
  | HandlerStart => inc_active active
  | HandlerEnd => dec_active active
  end.

(** [_active] after the events, from its initial value 0. *)
Definition counter_after (evs : list event) : Z := fold_left on_event evs 0.

(** How many handlers have started, and how many have ended. *)
Fixpoint starts (evs : list event) : nat :=
  match evs with
  | [] => O
  | HandlerStart :: evs' => S (starts evs')
  | HandlerEnd :: evs' => starts evs'
  end.

Fixpoint ends (evs : list event) : nat :=
  match evs with
  | [] => O
  | HandlerStart :: evs' => ends evs'
  | HandlerEnd :: evs' => S (ends evs')
  end.

(** Every end is the end of a handler that has started: at no point of
    the sequence have more handlers ended than started. *)
Definition ends_follow_starts (evs : list event) : Prop :=
  ∀ k, (ends (take k evs) ≤ starts (take k evs))%nat.

End Activity.

(** ** Python exceptions and results *)

Module Py.

(** The exception classes that the server raises or catches, each with
    its message. *)
Inductive exn :=
| ValueError (msg : string)
| PermissionError (msg : string)
| FileNotFoundError (msg : string)
| IndexError (msg : string)
| OSError (msg : string).

Inductive result (A : Type) :=
| Ok (a : A)
| Raise (e : exn).
Arguments Ok {A} a.
Arguments Raise {A} e.

Definition bind {A B} (r : result A) (k : A → result B) : result B :=
  match r with
  | Ok a => k a
  | Raise e => Raise e
  end.

End Py.

Notation "x ←! r ; k" := (Py.bind r (λ x, k))
(at level 200, r at level 100, k at level 200, right associativity,
 format "'[v' x  ←!  r ; '/' k ']'").

(** ** Python string methods *)

Module Str.
Local Open Scope string_scope.
Local Open Scope bool_scope.

Definition CR : ascii := "013"%char.
Definition LF : ascii := "010"%char.
Definition crlf : string := String CR (String LF "").
Definition nl : string := String LF "".

(** Truthiness of a [str]/[bytes] value. *)
Definition truthy (s : string) : bool :=
  match s with "" => false | _ => true end.

(** [s.startswith(p)], and [s.endswith(c)] for one character. *)
Fixpoint startswith (p s : string) : bool :=
  match p with
  | "" => true
  | String a p' =>
      match s with
      | String b s' => Ascii.eqb a b && startswith p' s'
      | "" => false
      end
  end.

Fixpoint endswith_char (c : ascii) (s : string) : bool :=
  match s with
  | "" => false
  | String d "" => Ascii.eqb d c
  | String _ s' => endswith_char c s'
  end.

(** [sub in s]. *)
Fixpoint contains (sub s : string) : bool :=
  startswith sub s ||
  match s with
  | "" => false
  | String _ s' => contains sub s'
  end.

(** [s.split(c)] for a one-character separator; never the empty list. *)
Fixpoint split_char (c : ascii) (s : string) : list string :=
  match s with
  | "" => [""]
  | String d s' =>
      if Ascii.eqb d c then "" :: split_char c s'
      else match split_char c s' with
           | h :: t => String d h :: t
           | [] => [String d ""]
           end
  end.

(** [s.split("\r\n")]. *)
Fixpoint split_crlf (s : string) : list string :=
  match s with
  | "" => [""]
  | String c s' =>
      match s' with
      | String d s'' =>
          if Ascii.eqb c CR && Ascii.eqb d LF then "" :: split_crlf s''
          else match split_crlf s' with
               | h :: t => String c h :: t
               | [] => [String c ""]
               end
      | "" => [String c ""]
      end
  end.

(** [sep.join(parts)]. *)
Fixpoint join (sep : string) (parts : list string) : string :=
  match parts with
  | [] => ""
  | [p] => p
  | p :: ps => p ++ sep ++ join sep ps
  end.

(** [str.isspace] on the code points below 256. *)
Definition isspace (c : ascii) : bool :=
  let n := N_of_ascii c in
  ((9 <=? n) && (n <=? 13) || (28 <=? n) && (n <=? 32)
   || (n =? 133) || (n =? 160))%N.

(** [s.split()]: the maximal runs of non-whitespace characters. *)
Fixpoint split_ws (s : string) : list string :=
  match s with
  | "" => []
  | String c s' =>
      if isspace c then split_ws s'
      else match s' with
           | "" => [String c ""]
           | String d _ =>
               if isspace d then String c "" :: split_ws s'
               else match split_ws s' with
                    | w :: ws => String c w :: ws
                    | [] => [String c ""]
                    end
           end
  end.

Fixpoint lstrip (s : string) : string :=
  match s with
  | "" => ""
  | String c s' => if isspace c then lstrip s' else s
  end.

Fixpoint rstrip (s : string) : string :=
  match s with
  | "" => ""
  | String c s' =>
      match rstrip s' with
      | "" => if isspace c then "" else String c ""
      | r => String c r
      end
  end.

(** [s.strip()]. *)
Definition strip (s : string) : string := rstrip (lstrip s).

(** [s.lstrip(c)] for a one-character argument. *)
Fixpoint lstrip_char (c : ascii) (s : string) : string :=
  match s with
  | "" => ""
  | String d s' => if Ascii.eqb d c then lstrip_char c s' else s
  end.

(** [s.partition(c)]: the part before the first [c], whether [c] was
    found (Python's second component is then [c], else empty), and the
    part after it. *)
Fixpoint partition (c : ascii) (s : string) : string * bool * string :=
  match s with
  | "" => ("", false, "")
  | String d s' =>
      if Ascii.eqb d c then ("", true, s')
      else let '(k, found, v) := partition c s' in (String d k, found, v)
  end.

Definition lower_char (c : ascii) : ascii :=
  let n := N_of_ascii c in
  if ((65 <=? n) && (n <=? 90))%N then ascii_of_N (n + 32) else c.

(** [s.lower()]; the server only compares the result with ASCII
    words. *)
Fixpoint lower (s : string) : string :=
  match s with
  | "" => ""
  | String c s' => String (lower_char c) (lower s')
  end.

(** [s.removeprefix(p)], when [s] starts with [p]. *)
Fixpoint strip_prefix (p s : string) : option string :=
  match p with
  | "" => Some s
  | String a p' =>
      match s with
      | String b s' => if Ascii.eqb a b then strip_prefix p' s' else None
      | "" => None
      end
  end.

(** Does ["\r\n"] occur in [s]? *)
Fixpoint has_crlf (s : string) : bool :=
  match s with
  | "" => false
  | String c s' =>
      match s' with
      | String d _ => (Ascii.eqb c CR && Ascii.eqb d LF) || has_crlf s'
      | "" => false
      end
  end.

(** [str(n)] for a natural number. *)
Definition of_nat (n : nat) : string := NilZero.string_of_uint (Nat.to_uint n).

(** [len(s)]. *)
Definition len (s : string) : nat := String.length s.

End Str.

(** ** The [os.path] functions of a POSIX platform *)

Module PosixPath.
Import Py.
Local Open Scope string_scope.
Local Open Scope bool_scope.

Definition sep : ascii := "/"%char.

Definition isabs (p : string) : bool := Str.startswith "/" p.

(** [os.path.join(a, b)]. *)
Definition join (a b : string) : string :=
  if Str.startswith "/" b || negb (Str.truthy a) then b
  else if Str.endswith_char sep a then a ++ b
  else a ++ "/" ++ b.

(** One iteration of the loop of [normpath] over the components;
    [new_comps] grows and shrinks at its end. *)
Definition norm_step (initial_slashes : nat) (new_comps : list string)
    (comp : string) : list string :=
  if (comp =? "") || (comp =? ".") then new_comps
  else if negb (comp =? "..")
          || (Nat.eqb initial_slashes 0 && bool_decide (new_comps = []))
          || match last new_comps with
             | Some l => l =? ".."
             | None => false
             end
  then new_comps ++ [comp]
  else removelast new_comps.

Definition initial_slashes (path : string) : nat :=
  if Str.startswith "/" path then
    if Str.startswith "//" path && negb (Str.startswith "///" path)
    then 2%nat else 1%nat
  else 0%nat.

(** [os.path.normpath]. *)
Definition normpath (path : string) : string :=
  if negb (Str.truthy path) then "."
  else
    let n := initial_slashes path in
    let new_comps := fold_left (norm_step n) (Str.split_char sep path) [] in
    let path := Str.join "/" new_comps in
    let path :=
      match n with
      | O => path
      | 1%nat => "/" ++ path
      | _ => "//" ++ path
      end in
    if Str.truthy path then path else ".".

(** [os.path.abspath], with the process's working directory. *)
Definition abspath (cwd path : string) : string :=
  if isabs path then normpath path else normpath (join cwd path).

(** The component list [commonpath] compares: empty components and
    ["."] are dropped. *)
Definition split_path (p : string) : list string :=
  filter (λ c, Str.truthy c && negb (c =? ".") = true) (Str.split_char sep p).

(** Python's order on lists of strings. *)
Fixpoint list_compare (a b : list string) : comparison :=
  match a, b with
  | [], [] => Eq
  | [], _ :: _ => Lt
  | _ :: _, [] => Gt
  | x :: a', y :: b' =>
      match String.compare x y with
      | Eq => list_compare a' b'
      | c => c
      end
  end.

(** [min] and [max] keep the first extremal element. *)
Definition py_min (x : list string) (xs : list (list string)) : list string :=
  fold_left (λ m y, match list_compare y m with Lt => y | _ => m end) xs x.

Definition py_max (x : list string) (xs : list (list string)) : list string :=
  fold_left (λ m y, match list_compare y m with Gt => y | _ => m end) xs x.

(** The loop [for i, c in enumerate(s1): if c != s2[i]: ...]; indexing
    [s2] out of range raises. *)
Fixpoint common_loop (s1 s2 : list string) : result (list string) :=
  match s1 with
  | [] => Ok []
  | c :: s1' =>
      match s2 with
      | [] => Raise (IndexError "list index out of range")
      | d :: s2' =>
          if c =? d then common ←! common_loop s1' s2'; Ok (c :: common)
          else Ok []
      end
  end.

(** [os.path.commonpath]. *)
Definition commonpath (paths : list string) : result string :=
  match paths with
  | [] => Raise (ValueError "commonpath() arg is an empty sequence")
  | p :: ps =>
      if negb (forallb (λ q, Bool.eqb (isabs q) (isabs p)) ps)
      then Raise (ValueError "Can't mix absolute and relative paths")
      else
        let s1 := py_min (split_path p) (map split_path ps) in
        let s2 := py_max (split_path p) (map split_path ps) in
        common ←! common_loop s1 s2;
        Ok ((if isabs p then "/" else "") ++ Str.join "/" common)
  end.

(** [c] does not occur in [s]. *)
Definition free_of (c : ascii) (s : string) : Prop := Str.split_char c s = [s].

(** A path component as [split_path] keeps it. *)
Definition component (c : string) : Prop :=
  Str.truthy c && negb (c =? ".") = true.

(** [p] is [root] or lies below it: the directory names that lead to
    [root] are the first ones that lead to [p]. *)
Definition inside (root p : string) : Prop :=
  split_path root `prefix_of` split_path p.

(** A path in the form [abspath] gives it when it starts with one slash:
    the slash, then its components joined by single slashes. *)
Definition normal (p : string) : Prop :=
  p = "/" ++ Str.join "/" (split_path p).

End PosixPath.

(** ** The file system, as the server's system calls see it *)

Module Os.
Import PosixPath.
Local Open Scope string_scope.
Local Open Scope bool_scope.

Inductive node :=
| RegFile (data : string) (readable : bool)
| Directory
| Symlink (target : string).

(** The directory tree, keyed by the absolute path of each entry, and
    the working directory of the process. *)
Record filesystem := FS { nodes : gmap string node; getcwd : string }.

Definition path_of (comps : list string) : string := "/" ++ Str.join "/" comps.

Section Walk.
Variable fs : filesystem.
(** [strict]: every component but the last must be a directory, as
    for a system call; otherwise the walk is [os.path.realpath]'s. *)
Variable strict : bool.

(** Path resolution, one component per step, following symbolic
    links; [None] when [fuel] links and components did not suffice or
    a strict walk fails. *)
Fixpoint walk (fuel : nat) (cur rest : list string) : option (list string) :=
  match fuel with
  | O => None
  | S fuel' =>
      match rest with
      | [] => Some cur
      | c :: rest' =>
          if (c =? "") || (c =? ".") then walk fuel' cur rest'
          else if c =? ".." then walk fuel' (removelast cur) rest'
          else
            match nodes fs !! path_of (cur ++ [c]) with
            | Some (Symlink target) =>
                walk fuel' (if isabs target then [] else cur)
                     (Str.split_char sep target ++ rest')
            | Some Directory => walk fuel' (cur ++ [c]) rest'
            | _ =>
                if strict && negb (bool_decide (rest' = [])) then None
                else walk fuel' (cur ++ [c]) rest'
            end
      end
  end.
End Walk.

Definition max_walk : nat := 64 * 64.

Definition resolve (fs : filesystem) (strict : bool) (p : string) : option string :=
  path_of <$> walk fs strict max_walk []
    (Str.split_char sep (if isabs p then p else join (getcwd fs) p)).


(** What [stat(p)] finds. *)
Definition stat (fs : filesystem) (p : string) : option node :=
  q ← resolve fs true p; nodes fs !! q.

Definition exists_ (fs : filesystem) (p : string) : bool :=
  bool_decide (is_Some (stat fs p)).

Definition isfile (fs : filesystem) (p : string) : bool :=
  match stat fs p with Some (RegFile _ _) => true | _ => false end.

(** [os.access(p, os.R_OK)]. *)
Definition access_r (fs : filesystem) (p : string) : bool :=
  match stat fs p with
  | Some (RegFile _ r) => r
  | Some _ => true
  | None => false
  end.

(** [open(p, "rb").read()]. *)
Definition read_file (fs : filesystem) (p : string) : option string :=
  match stat fs p with
  | Some (RegFile data true) => Some data
  | _ => None
  end.

(** [os.path.isdir(p)]. *)
Definition isdir (fs : filesystem) (p : string) : bool :=
  match stat fs p with Some Directory => true | _ => false end.

End Os.

(** ** The server *)

Module Server.
Import Py.
Local Open Scope string_scope.
Local Open Scope bool_scope.

(** *** Library functions and configuration *)

(** The library functions whose results the server only passes on. *)
Record platform := Platform {
  decode : string → string;            (* [bytes.decode("utf-8", errors="ignore")] *)
  unquote : string → string;           (* [urllib.parse.unquote] *)
  guess_type : string → option string; (* [mimetypes.guess_type(file)[0]] *)
  formatdate : nat → string;           (* [formatdate(usegmt=True)] at a clock value *)
}.

(** [http.HTTPStatus]: an integer with a reason phrase. *)
Record HTTPStatus := Status { value : nat; phrase : string }.

Definition OK : HTTPStatus := Status 200 "OK".
Definition NO_CONTENT : HTTPStatus := Status 204 "No Content".
Definition BAD_REQUEST : HTTPStatus := Status 400 "Bad Request".
Definition FORBIDDEN : HTTPStatus := Status 403 "Forbidden".
Definition NOT_FOUND : HTTPStatus := Status 404 "Not Found".

(** What stays fixed while a connection is handled: the libraries, the
    file system, [ROOT_DIR], and the clock value at which a signal sets
    [stop_event] (if one ever arrives). *)
Record env := Env {
  plat : platform;
  fs : Os.filesystem;
  ROOT_DIR : string;
  stop_at : option nat;
}.

(** *** The world of one connection handler *)

(** The socket calls are modelled where they return: [recv] delivers
    bytes, runs into the socket timeout or finds the peer closed (after
    finitely many reads at the latest), and [sendall] and [select]
    succeed.  The [OSError] that a reset connection raises from these
    calls is not part of the model. *)

(** What one [recv(4096)] call does: deliver bytes (none: the peer
    closed) or run into the socket timeout. *)
Inductive recv_event :=
| Data (chunk : string)
| Timeout.

(** The timeout handed to [select]: [keepalive_timeout()] seconds, or
    [0.1]. *)
Inductive tout :=
| Seconds (n : Z)
| Tenth.

Record world := World {
  clock : nat;                (* advanced by every call to the outside *)
  inbox : list recv_event;    (* what the next [recv] calls return; then the peer has closed *)
  readable : list bool;       (* whether the next [select] calls find the socket readable *)
  outbox : list string;       (* the payloads of [sendall], oldest first *)
  waits : list tout;          (* the timeouts of the [select] calls *)
  stderr : list string;
  stdout : list string;
  active : Z;                 (* the global [_active] *)
  closed : bool;              (* [connectionSocket.close()] was called *)
}.

Definition tick (w : world) : world :=
  World (S (clock w)) (inbox w) (readable w) (outbox w) (waits w)
        (stderr w) (stdout w) (active w) (closed w).

Definition set_inbox (l : list recv_event) (w : world) : world :=
  World (clock w) l (readable w) (outbox w) (waits w)
        (stderr w) (stdout w) (active w) (closed w).

Definition set_active (a : Z) (w : world) : world :=
  World (clock w) (inbox w) (readable w) (outbox w) (waits w)
        (stderr w) (stdout w) a (closed w).

(** [sys.stderr.write(msg)]. *)
Definition stderr_write (msg : string) (w : world) : world :=
  World (clock w) (inbox w) (readable w) (outbox w) (waits w)
        (stderr w ++ [msg]) (stdout w) (active w) (closed w).

(** [print(msg, flush=True)]. *)
Definition print (msg : string) (w : world) : world :=
  World (clock w) (inbox w) (readable w) (outbox w) (waits w)
        (stderr w) (stdout w ++ [msg]) (active w) (closed w).

(** [connectionSocket.sendall(response)]. *)
Definition sendall (response : string) (w : world) : world :=
  World (S (clock w)) (inbox w) (readable w) (outbox w ++ [response]) (waits w)
        (stderr w) (stdout w) (active w) (closed w).

(** [select.select([connectionSocket], [], [], t)]: is the socket
    readable within [t]? *)
Definition select (t : tout) (w : world) : bool * world :=
  (match readable w with b :: _ => b | [] => false end,
   World (S (clock w)) (inbox w) (tl (readable w)) (outbox w) (waits w ++ [t])
         (stderr w) (stdout w) (active w) (closed w)).

(** [connectionSocket.close()]. *)
Definition close (w : world) : world :=
  World (clock w) (inbox w) (readable w) (outbox w) (waits w)
        (stderr w) (stdout w) (active w) true.

(** [stop_event.is_set()]. *)
Definition stopped (e : env) (w : world) : bool :=
  match stop_at e with
  | Some t => (t <=? clock w)%nat
  | None => false
  end.

Definition is_set (e : env) (w : world) : bool * world := (stopped e w, tick w).

Definition inc_active (w : world) : world :=
  set_active (Activity.inc_active (active w)) w.

Definition dec_active (w : world) : world :=
  set_active (Activity.dec_active (active w)) w.

Definition keepalive_timeout (w : world) : Z :=
  Activity.keepalive_timeout (active w).

(** *** [parse_request] *)

Record request := Request {
  method : string;
  uri : string;
  version : string;
  host : option string;
  connection : option string;
}.

Definition terminator : string := Str.crlf ++ Str.crlf.

(** The failures of [parse_request], all of class [ValueError]. *)
Definition ConnectionBroken : exn := ValueError "connection disrupted".
Definition MalformedRequestLine : exn := ValueError "invalid request line".
Definition UnsupportedMethod (m : string) : exn := ValueError (m ++ " is not supported").
Definition MissingHostHeader : exn := ValueError "HTTP/1.1 with missing Host header".

(** The [while True] loop of [parse_request], by recursion on what the
    socket still has to deliver; [raw] is the bytes read so far
    (the source's [request]).
    [Ok None] is the [return None] of a shutdown. *)
Fixpoint recv_loop (e : env) (pending : list recv_event) (raw : string)
    (w : world) : result (option string) * world :=
  let (stop, w) := is_set e w in
  if stop then (Ok None, w)
  else
    match pending with
    | [] =>
        (Raise ConnectionBroken,
         stderr_write ("connection disrupted" ++ Str.nl) (tick w))
    | Data chunk :: rest =>
        let w := set_inbox rest (tick w) in
        if negb (Str.truthy chunk) then
          (Raise ConnectionBroken, stderr_write ("connection disrupted" ++ Str.nl) w)
        else
          let raw := raw ++ chunk in
          if Str.contains terminator raw then (Ok (Some raw), w)
          else recv_loop e rest raw w
    | Timeout :: rest => recv_loop e rest raw (set_inbox rest (tick w))
    end.

(** The loop over [lines[1:]] that picks up [Host] and [Connection]. *)
Fixpoint scan_headers (lines : list string) (host connection : option string)
    : option string * option string :=
  match lines with
  | [] => (host, connection)
  | header :: rest =>
      if negb (Str.truthy (Str.strip header)) then (host, connection)
      else
        let '(key, found, value) := Str.partition ":" header in
        if negb found then scan_headers rest host connection
        else
          let key := Str.lower (Str.strip key) in
          let value := Str.strip value in
          if key =? "host" then scan_headers rest (Some value) connection
          else if key =? "connection" then scan_headers rest host (Some value)
          else scan_headers rest host connection
  end.

(** The header block of a request: the lines before the first blank
    one; and the name of the field on a line, if the line has a
    colon. *)
Fixpoint header_block (lines : list string) : list string :=
  match lines with
  | [] => []
  | l :: rest => if Str.truthy (Str.strip l) then l :: header_block rest else []
  end.

Definition field_name (line : string) : option string :=
  let '(key, found, _) := Str.partition ":" line in
  if found then Some (Str.lower (Str.strip key)) else None.

(** The request whose lines after the request line are [lines] carries
    a [Host] header field. *)
Definition carries_host (lines : list string) : Prop :=
  Exists (λ l, field_name l = Some "host") (header_block lines).

(** Truthiness of a value that is [None] or a string. *)
Definition truthy_opt (o : option string) : bool :=
  match o with Some s => Str.truthy s | None => false end.

(** [parse_request] from the point where the header bytes are
    complete. *)
Definition parse_text (e : env) (raw : string) (w : world)
    : result (option request) * world :=
  let lines := Str.split_crlf (decode (plat e) raw) in
  if (length lines <? 1)%nat then
    (Raise (ValueError "empty request"), stderr_write ("empty request" ++ Str.nl) w)
  else
    match Str.split_ws (hd "" lines) with
    | [method; uri; ver] =>
        if negb ((method =? "GET") || (method =? "HEAD")) then
          (Raise (UnsupportedMethod method), stderr_write ("method not supported" ++ Str.nl) w)
        else
          let '(host, connection) := scan_headers (tl lines) None None in
          if (ver =? "HTTP/1.1") && negb (truthy_opt host) then
            (Raise MissingHostHeader, stderr_write ("missing host header 1.1" ++ Str.nl) w)
          else
            (Ok (Some (Request method (unquote (plat e) uri) ver host connection)), w)
    | _ =>
        (Raise MalformedRequestLine, stderr_write ("invalid request line" ++ Str.nl) w)
    end.

Definition parse_request (e : env) (w : world) : result (option request) * world :=
  match recv_loop e (inbox w) "" w with
  | (Ok (Some raw), w) => parse_text e raw w
  | (Ok None, w) => (Ok None, w)
  | (Raise ex, w) => (Raise ex, w)
  end.

(** *** [get_file] *)

Definition get_file (e : env) (uri : string) : result string :=
  let uri := if uri =? "/" then "/index.html" else uri in
  let file :=
    PosixPath.abspath (Os.getcwd (fs e))
      (PosixPath.join (ROOT_DIR e) (Str.lstrip_char "/" uri)) in
  common ←! PosixPath.commonpath [ROOT_DIR e; file];
  if negb (common =? ROOT_DIR e) then
    Raise (PermissionError "Forbidden: out of bounds traversal")
  else if negb (Os.exists_ (fs e) file) || negb (Os.isfile (fs e) file) then
    Raise (FileNotFoundError (uri ++ " not found in directory"))
  else if negb (Os.access_r (fs e) file) then
    Raise (PermissionError "Permission denied")
  else Ok file.

(** The candidate path of a URI as [get_file] forms it: the root joined
    with the URI without its leading slashes, made absolute and
    normalised by [abspath], which collapses ["."] and [".."] in the
    text and follows no symbolic link. *)
Definition candidate (e : env) (uri : string) : string :=
  let uri := if uri =? "/" then "/index.html" else uri in
  PosixPath.abspath (Os.getcwd (fs e))
    (PosixPath.join (ROOT_DIR e) (Str.lstrip_char "/" uri)).


(** *** [respond] *)

Definition respond (status : HTTPStatus) (date version body content_type : string)
    (connection : option string) : string :=
  let response :=
    version ++ " " ++ Str.of_nat (value status) ++ " " ++ phrase status ++ Str.crlf in
  let response := response ++ date in
  let response := response ++ ("Content-Type: " ++ content_type ++ Str.crlf) in
  let response :=
    if Str.truthy body
    then response ++ ("Content-Length: " ++ Str.of_nat (Str.len body) ++ Str.crlf)
    else response in
  let response :=
    if (version =? "HTTP/1.1") && truthy_opt connection then
      response ++ ("Connection: " ++ default "" connection ++ Str.crlf ++ Str.crlf)
    else if Nat.eqb (value status) 400 then
      response ++ ("Connection: close" ++ Str.crlf ++ Str.crlf)
    else response ++ Str.crlf in
  if negb (Nat.eqb (value status) (value NO_CONTENT)) then response ++ body
  else response.

(** *** [handler] *)

(** [open(file, "rb")] followed by [f.read()]. *)
Definition open_read (e : env) (file : string) : result string :=
  match Os.stat (fs e) file with
  | Some (Os.RegFile data true) => Ok data
  | Some (Os.RegFile _ false) => Raise (PermissionError "Permission denied")
  | Some _ => Raise (OSError "Is a directory")
  | None => Raise (FileNotFoundError "No such file or directory")
  end.

(** The local variables of one iteration of the loop that [respond]
    receives. *)
Record reply := Reply {
  r_status : HTTPStatus;
  r_version : string;
  r_body : string;
  r_content_type : string;
  r_connection : option string;
}.

(** The [except] clauses, entered with the values [version] and
    [connection] have when the exception is raised.  An exception of
    another class leaves the loop. *)
Definition on_exception (ex : exn) (version : string) (connection : option string)
    (w : world) : result (option reply) * world :=
  match ex with
  | ValueError msg =>
      (Ok (Some (Reply BAD_REQUEST version "<h1>400 Bad Request</h1>" "text/html" connection)),
       print ("400 due to " ++ msg) w)
  | PermissionError msg =>
      (Ok (Some (Reply FORBIDDEN version "<h1>403 Forbidden</h1>" "text/html" connection)),
       print ("forbidden due to " ++ msg) w)
  | FileNotFoundError msg =>
      (Ok (Some (Reply NOT_FOUND version "<h1>404 Not Found</h1>" "text/html" connection)),
       print ("not found due to " ++ msg) w)
  | _ => (Raise ex, w)
  end.

(** The [try] statement of the loop body; [Ok None] is the [break]
    after [parse_request] returned [None]. *)
Definition try_request (e : env) (w : world) : result (option reply) * world :=
  let version := "HTTP/1.0" in
  let connection := None in
  match parse_request e w with
  | (Raise ex, w) => on_exception ex version connection w
  | (Ok None, w) => (Ok None, w)
  | (Ok (Some request), w) =>
      let version := Server.version request in
      let connection := Server.connection request in
      match get_file e (uri request) with
      | Raise ex => on_exception ex version connection w
      | Ok file =>
          let content_type :=
            match guess_type (plat e) file with
            | Some guessed => if Str.truthy guessed then guessed else "application/octet-stream"
            | None => "application/octet-stream"
            end in
          match open_read e file with
          | Raise ex => on_exception ex version connection w
          | Ok data =>
              let body := if method request =? "GET" then data else "" in
              (Ok (Some (Reply OK version body content_type connection)), w)
          end
      end
  end.

(** The bytes one iteration sends for the reply [r]. *)
Definition response_of (e : env) (r : reply) (w : world) : string :=
  let date := "Date: " ++ formatdate (plat e) (clock w) ++ Str.crlf in
  respond (r_status r) date (r_version r) (r_body r) (r_content_type r) (r_connection r).

(** The test that ends the loop after a response. *)
Definition must_close (r : reply) : bool :=
  (r_version r =? "HTTP/1.0")
  || bool_decide (r_connection r = Some "close")
  || (400 <=? value (r_status r))%nat.

(** The same test, as a proposition on the reply. *)
Definition closing (r : reply) : Prop :=
  r_version r = "HTTP/1.0"
  ∨ r_connection r = Some "close"
  ∨ (400 ≤ value (r_status r))%nat.

(** The reply to a request that could not be parsed: [version] and
    [connection] still have their initial values. *)
Definition bad_request_reply : reply :=
  Reply BAD_REQUEST "HTTP/1.0" "<h1>400 Bad Request</h1>" "text/html" None.

(** The bytes that a run of [recv] calls delivers. *)
Fixpoint received (events : list recv_event) : string :=
  match events with
  | [] => ""
  | Data chunk :: rest => chunk ++ received rest
  | Timeout :: rest => received rest
  end.

(** The parts of the world that reading and parsing a request leave
    alone. *)
Definition untouched (w w' : world) : Prop :=
  readable w' = readable w ∧ outbox w' = outbox w ∧ waits w' = waits w
  ∧ active w' = active w ∧ closed w' = closed w.

(** How one iteration of the [while True] loop ends. *)
Inductive loop_end :=
| Break      (* a [break]: on to the [finally] block *)
| Continue.  (* the socket is readable again: next iteration *)

Definition cycle (e : env) (w : world) : result loop_end * world :=
  let (stop, w) := is_set e w in
  if stop then (Ok Break, w)
  else
    match try_request e w with
    | (Raise ex, w) => (Raise ex, w)
    | (Ok None, w) => (Ok Break, w)
    | (Ok (Some r), w) =>
        let w := sendall (response_of e r w) w in
        if must_close r then (Ok Break, w)
        else
          let t := keepalive_timeout w in
          let (stop, w) := is_set e w in
          let t := if stop then Tenth else Seconds t in
          let (ready, w) := select t w in
          if negb ready then (Ok Break, w) else (Ok Continue, w)
    end.

(** The loop, entered in the first world, comes to the start of an
    iteration in the second. *)
Inductive loop_reaches (e : env) : world → world → Prop :=
| reaches_here w : loop_reaches e w w
| reaches_on w w1 w' :
    cycle e w = (Ok Continue, w1) → loop_reaches e w1 w' → loop_reaches e w w'.

(** The [while True] loop; [None] when [fuel] iterations did not reach
    its end. *)
Fixpoint handler_loop (fuel : nat) (e : env) (w : world)
    : option (result unit * world) :=
  match fuel with
  | O => None
  | S fuel' =>
      match cycle e w with
      | (Raise ex, w) => Some (Raise ex, w)
      | (Ok Break, w) => Some (Ok (), w)
      | (Ok Continue, w) => handler_loop fuel' e w
      end
  end.

(** The [finally] block. *)
Definition finally (w : world) : world := close (dec_active w).

(** [handler]: every iteration that is followed by another one has
    taken at least one event from the socket, so one more iteration
    than events is enough. *)
Definition handler (e : env) (w : world) : option (result unit * world) :=
  let w := inc_active w in
  match handler_loop (S (length (inbox w))) e w with
  | Some (r, w) => Some (r, finally w)
  | None => None
  end.

(** *** Reading a response back

    What a client finds in the bytes it receives: the lines up to the
    first empty one are the status line and the header fields. *)

Fixpoint head_lines (lines : list string) : list string :=
  match lines with
  | [] => []
  | l :: rest => if Str.truthy l then l :: head_lines rest else []
  end.

Definition status_line (response : string) : string :=
  hd "" (Str.split_crlf response).

Definition header_lines (response : string) : list string :=
  head_lines (tl (Str.split_crlf response)).

(** Lines, each followed by a line break, before [rest]. *)
Definition unlines (lines : list string) (rest : string) : string :=
  foldr (λ l acc, l ++ Str.crlf ++ acc) rest lines.

(** The values of the header fields [name: value], in order. *)
Definition header_values (name : string) (response : string) : list string :=
  omap (Str.strip_prefix (name ++ ": ")) (header_lines response).

(** The arguments for which a response has the intended line
    structure: none smuggles in a line break.  [d] is the date, the
    argument [date] being ["Date: " ++ d ++ "\r\n"]. *)
Definition header_safe (status : HTTPStatus) (d version content_type : string)
    (connection : option string) : Prop :=
  Str.has_crlf version = false ∧ Str.has_crlf (phrase status) = false
  ∧ Str.has_crlf d = false ∧ Str.has_crlf content_type = false
  ∧ Str.has_crlf (default "" connection) = false.

(** Libraries whose dates and content types contain no line break. *)
Definition platform_safe (p : platform) : Prop :=
  (∀ n, Str.has_crlf (formatdate p n) = false)
  ∧ (∀ f t, guess_type p f = Some t → Str.has_crlf t = false).

(** The [Connection] header fields as the specification words them:
    the negotiated directive under HTTP/1.1, else [close] for a status
    of the 400 class, else none. *)
Definition spec_connection_values (status : HTTPStatus) (version : string)
    (connection : option string) : list string :=
  if (version =? "HTTP/1.1") && truthy_opt connection then [default "" connection]
  else if (400 <=? value status)%nat && (value status <? 500)%nat then ["close"]
  else [].

(** The value of the last field called [name] (in lower case) among
    the lines [block], as a reader of the request would find it. *)
Definition field_value (name : string) (line : string) : option string :=
  let '(key, found, v) := Str.partition ":" line in
  if found && (Str.lower (Str.strip key) =? name) then Some (Str.strip v) else None.

Definition last_field (name : string) (block : list string) : option string :=
  last (omap (field_value name) block).

End Server.

(** ** Start-up: [parse_args] *)

Module Startup.
Import Py.
Local Open Scope string_scope.
Local Open Scope bool_scope.

(** The globals that [parse_args] sets. *)
Record config := Config { PORT : Z; ROOT_DIR : string }.

(** Their values when the module is loaded. *)
Definition defaults (fs : Os.filesystem) : config :=
  Config 8080 (PosixPath.abspath (Os.getcwd fs) "files").

(** How start-up ends: the server goes on with a configuration, an
    exception leaves [parse_args], or [sys.exit] is called after a
    message was printed. *)
Inductive outcome :=
| Started (c : config)
| Crashed (ex : exn)
| Exited (code : Z) (message : string).

(** [args.index(x)]; [None] when [x not in args]. *)
Fixpoint index (x : string) (args : list string) : option nat :=
  match args with
  | [] => None
  | a :: rest => if a =? x then Some O else S <$> index x rest
  end.

(** [args[args.index(flag) + 1]] when [flag in args]. *)
Definition flag_value (flag : string) (args : list string) : option (result string) :=
  match index flag args with
  | Some i =>
      Some (match args !! S i with
            | Some v => Ok v
            | None => Raise (IndexError "list index out of range")
            end)
  | None => None
  end.

(** [parse_args], with [argv] for [sys.argv] and [int] for the built-in
    conversion of a string to an integer. *)
Definition parse_args (int : string → result Z) (fs : Os.filesystem)
    (argv : list string) : outcome :=
  let args := tl argv in
  let c := defaults fs in
  let port :=
    match flag_value "-port" args with
    | Some v => s ←! v; int s
    | None => Ok (PORT c)
    end in
  match port with
  | Raise ex => Crashed ex
  | Ok port =>
      let root :=
        match flag_value "-document_root" args with
        | Some v => s ←! v; Ok (PosixPath.abspath (Os.getcwd fs) s)
        | None => Ok (ROOT_DIR c)
        end in
      match root with
      | Raise ex => Crashed ex
      | Ok root =>
          if negb (Os.isdir fs root) then
            Exited 1 ("Error: Root directory '" ++ root ++ "' does not exist.")
          else Started (Config port root)
      end
  end.

End Startup.

(** ** A small site, for running the server on concrete requests *)

Module Example.
Import Os Server.
Local Open Scope string_scope.

(** Library functions for requests made of ASCII bytes without percent
    escapes, for which decoding and unquoting change nothing; only
    [.html] names have a guessed type here; the date is fixed. *)
Definition ascii_platform : platform :=
  Platform (λ raw, raw) (λ s, s)
           (λ f, if Str.contains ".html" f then Some "text/html" else None)
           (λ _, "Thu, 01 Jan 1970 00:00:00 GMT").

(** A document root with an index page, an empty file, and a symbolic
    link that leaves the root. *)
Definition site : filesystem :=
  FS (list_to_map
        [("/", Directory); ("/etc", Directory); ("/srv", Directory);
         ("/srv/www", Directory);
         ("/etc/passwd", RegFile "root:x:0:0" true);
         ("/srv/www/index.html", RegFile "<html>hello</html>" true);
         ("/srv/www/empty.txt", RegFile "" true);
         ("/srv/www/leak", Symlink "/etc/passwd")])
     "/".

(** The server on [/srv/www], never signalled. *)
Definition served : env := Env ascii_platform site "/srv/www" None.

(** A fresh connection on which the peer sends [chunks] and then
    closes; [ready] scripts the [select] calls. *)
Definition connection (chunks : list string) (ready : list bool) : world :=
  World 0 (Data <$> chunks) ready [] [] [] [] 0 false.

Definition get (target version : string) (fields : list string) : string :=
  unlines (("GET " ++ target ++ " " ++ version) :: fields) Str.crlf.

End Example.

(** * Properties *)

(** ** The activity counter and the keep-alive timeout *)

Module ActivityProps.
Import Activity.

(** C8.  The keep-alive timeout is 10 for fewer than 5 active
    connections, 5 for 5 to 19, and 2 from 20 on; so it never grows
    with the count, and at the counts 0, 4, 5, 19, 20, 50 it is
    10, 10, 5, 5, 2, 2. *)
Theorem C8_keepalive_timeout (n m : Z) :
  n ≤ m →
  (n < 5 → keepalive_timeout n = 10)
  ∧ (5 ≤ n < 20 → keepalive_timeout n = 5)
  ∧ (20 ≤ n → keepalive_timeout n = 2)
  ∧ keepalive_timeout m ≤ keepalive_timeout n
  ∧ map keepalive_timeout [0; 4; 5; 19; 20; 50] = [10; 10; 5; 5; 2; 2].
Proof.
  intros Hnm. unfold keepalive_timeout.
  repeat split; try reflexivity; intros;
    repeat match goal with
           | |- context [?a <? ?b] => destruct (Z.ltb_spec a b)
           end; lia.
Qed.

Lemma C8_keepalive_timeout_witness :
  4 ≤ 19 ∧ keepalive_timeout 4 = 10 ∧ keepalive_timeout 19 ≤ keepalive_timeout 4.
Proof.
  assert (H : 4 ≤ 19) by lia.
  destruct (C8_keepalive_timeout 4 19 H) as (H1 & _ & _ & H4 & _).
  split; [exact H|]. split; [apply H1; lia | exact H4].
Defined.

End ActivityProps.

(** ** Strings *)

Module StrProps.
Import Str.
Local Open Scope string_scope.

Lemma app_nil_l (t : string) : "" ++ t = t.
Proof. reflexivity. Qed.

Lemma app_cons (c : ascii) (s t : string) : String c s ++ t = String c (s ++ t).
Proof. reflexivity. Qed.

Lemma app_nil_r (s : string) : s ++ "" = s.
Proof. induction s as [|c s IH]; [reflexivity|]. now rewrite app_cons, IH. Qed.

Lemma app_assoc (s t u : string) : (s ++ t) ++ u = s ++ t ++ u.
Proof. induction s as [|c s IH]; [reflexivity|]. now rewrite !app_cons, IH. Qed.

Lemma length_app (s t : string) :
  String.length (s ++ t) = (String.length s + String.length t)%nat.
Proof. induction s as [|c s IH]; [reflexivity|]. rewrite app_cons. simpl. now rewrite IH. Qed.

Lemma truthy_false (s : string) : truthy s = false ↔ s = "".
Proof. destruct s; simpl; split; congruence. Qed.

Lemma truthy_true (s : string) : truthy s = true ↔ s ≠ "".
Proof. destruct s; simpl; split; congruence. Qed.

(** *** Lines *)

Lemma has_crlf_cons (c : ascii) (s : string) :
  has_crlf (String c s) = false → has_crlf s = false.
Proof.
  simpl. destruct s as [|d s]; [reflexivity|].
  intros H. now apply orb_false_elim in H.
Qed.

Lemma has_crlf_cons_other (c : ascii) (s : string) :
  c ≠ CR → has_crlf s = false → has_crlf (String c s) = false.
Proof.
  intros Hc Hs. simpl. destruct s as [|d s]; [reflexivity|].
  rewrite Hs, orb_false_r.
  destruct (Ascii.eqb_spec c CR); [contradiction|reflexivity].
Qed.

Lemma has_crlf_app_char (a : string) (c : ascii) (b : string) :
  has_crlf a = false → c ≠ LF → has_crlf (String c b) = false →
  has_crlf (a ++ String c b) = false.
Proof.
  intros Ha Hc Hb. induction a as [|x a IH]; [exact Hb|].
  rewrite app_cons.
  destruct a as [|d a].
  - rewrite app_nil_l. change (has_crlf (String x (String c b)))
      with ((Ascii.eqb x CR && Ascii.eqb c LF) || has_crlf (String c b)).
    rewrite Hb, orb_false_r.
    destruct (Ascii.eqb_spec c LF); [contradiction|]. apply andb_false_r.
  - rewrite app_cons in *.
    change (has_crlf (String x (String d (a ++ String c b))))
      with ((Ascii.eqb x CR && Ascii.eqb d LF) || has_crlf (String d (a ++ String c b))).
    change (has_crlf (String x (String d a)))
      with ((Ascii.eqb x CR && Ascii.eqb d LF) || has_crlf (String d a)) in Ha.
    apply orb_false_elim in Ha as [-> Ha]. now rewrite IH.
Qed.

Lemma has_crlf_digits (d : Decimal.uint) :
  has_crlf (NilEmpty.string_of_uint d) = false.
Proof.
  induction d; simpl NilEmpty.string_of_uint;
    [reflexivity | apply has_crlf_cons_other; [discriminate | assumption] ..].
Qed.

Lemma has_crlf_of_nat (n : nat) : has_crlf (of_nat n) = false.
Proof.
  unfold of_nat, NilZero.string_of_uint.
  destruct (Nat.to_uint n) eqn:E; try reflexivity;
    rewrite <- E; apply has_crlf_digits.
Qed.

(** A line without line break, followed by a line break: [split]
    cuts there. *)
Lemma split_crlf_line (l rest : string) :
  has_crlf l = false →
  split_crlf (l ++ crlf ++ rest) = l :: split_crlf rest.
Proof.
  intros Hl. induction l as [|c l IH]; [reflexivity|].
  specialize (IH (has_crlf_cons _ _ Hl)).
  rewrite app_cons.
  destruct l as [|d l].
  - rewrite app_nil_l in *. unfold crlf at 1. rewrite app_cons.
    change (split_crlf (String c (String CR (String LF "" ++ rest))))
      with (if Ascii.eqb c CR && Ascii.eqb CR LF
            then "" :: split_crlf (String LF "" ++ rest)
            else match split_crlf (String CR (String LF "" ++ rest)) with
                 | h :: t => String c h :: t
                 | [] => [String c ""]
                 end).
    rewrite andb_false_r. unfold crlf in IH. rewrite app_cons in IH.
    now rewrite IH.
  - rewrite app_cons in *.
    change (split_crlf (String c (String d (l ++ crlf ++ rest))))
      with (if Ascii.eqb c CR && Ascii.eqb d LF
            then "" :: split_crlf (l ++ crlf ++ rest)
            else match split_crlf (String d (l ++ crlf ++ rest)) with
                 | h :: t => String c h :: t
                 | [] => [String c ""]
                 end).
    change (has_crlf (String c (String d l)))
      with ((Ascii.eqb c CR && Ascii.eqb d LF) || has_crlf (String d l)) in Hl.
    apply orb_false_elim in Hl as [-> _]. now rewrite IH.
Qed.

Lemma split_crlf_head (d : ascii) (s : string) :
  ∃ t, split_crlf (String d s) = "" :: t
       ∨ ∃ h, split_crlf (String d s) = String d h :: t.
Proof.
  destruct s as [|x s].
  - exists []. right. exists "". reflexivity.
  - change (split_crlf (String d (String x s)))
      with (if Ascii.eqb d CR && Ascii.eqb x LF then "" :: split_crlf s
            else match split_crlf (String x s) with
                 | h :: t => String d h :: t
                 | [] => [String d ""]
                 end).
    destruct (Ascii.eqb d CR && Ascii.eqb x LF); [eauto|].
    destruct (split_crlf (String x s)) as [|h t]; eauto.
Qed.

Lemma split_crlf_no_crlf_upto (n : nat) (s : string) :
  (String.length s ≤ n)%nat → Forall (λ l, has_crlf l = false) (split_crlf s).
Proof.
  revert s. induction n as [|n IH]; intros s Hn.
  { destruct s; [repeat constructor | simpl in Hn; lia]. }
  destruct s as [|c [|d s]]; [repeat constructor ..|].
  change (split_crlf (String c (String d s)))
    with (if Ascii.eqb c CR && Ascii.eqb d LF then "" :: split_crlf s
          else match split_crlf (String d s) with
               | h :: t => String c h :: t
               | [] => [String c ""]
               end).
  simpl in Hn.
  destruct (Ascii.eqb c CR && Ascii.eqb d LF) eqn:Hcd.
  - constructor; [reflexivity|]. apply IH. lia.
  - assert (Hs : Forall (λ l, has_crlf l = false) (split_crlf (String d s)))
      by (apply IH; simpl; lia).
    destruct (split_crlf_head d s) as [t [E|[h E]]]; rewrite E in *;
      inversion Hs as [|? ? Hh Ht]; subst; constructor; auto.
    change (has_crlf (String c (String d h)))
      with ((Ascii.eqb c CR && Ascii.eqb d LF) || has_crlf (String d h)).
    now rewrite Hcd, Hh.
Qed.

(** The lines that [split] produces contain no line break. *)
Lemma split_crlf_no_crlf (s : string) :
  Forall (λ l, has_crlf l = false) (split_crlf s).
Proof. apply (split_crlf_no_crlf_upto (String.length s)). reflexivity. Qed.

Lemma split_crlf_nonempty (s : string) : split_crlf s ≠ [].
Proof.
  destruct s as [|d s]; [discriminate|].
  destruct (split_crlf_head d s) as [t [E|[h E]]]; rewrite E; discriminate.
Qed.

Lemma split_crlf_cons (s : string) : ∃ l ls, split_crlf s = l :: ls.
Proof.
  pose proof (split_crlf_nonempty s). destruct (split_crlf s); [congruence | eauto].
Qed.

Lemma isspace_CR (c : ascii) : isspace c = false → c ≠ CR.
Proof. intros H ->. discriminate. Qed.

(** The words that [split] produces contain no line break. *)
Lemma split_ws_no_crlf (s : string) :
  Forall (λ t, has_crlf t = false) (split_ws s).
Proof.
  induction s as [|c s IH]; [constructor|].
  simpl. destruct (isspace c) eqn:Hc; [exact IH|].
  destruct s as [|d s]; [repeat constructor|].
  destruct (isspace d) eqn:Hd; [constructor; [reflexivity | exact IH]|].
  destruct (split_ws (String d s)) as [|w ws]; [repeat constructor|].
  inversion IH; subst. constructor; [|assumption].
  apply has_crlf_cons_other; [now apply isspace_CR | assumption].
Qed.

Lemma partition_no_crlf (c : ascii) (s k v : string) (found : bool) :
  partition c s = (k, found, v) → has_crlf s = false → has_crlf v = false.
Proof.
  revert k. induction s as [|d s IH]; intros k E Hs; simpl in E.
  - now inversion E.
  - destruct (Ascii.eqb d c).
    + inversion E; subst. eapply has_crlf_cons, Hs.
    + destruct (partition c s) as [[k' f'] v'] eqn:E'. inversion E; subst.
      eapply IH; [reflexivity | eapply has_crlf_cons, Hs].
Qed.

Lemma lstrip_no_crlf (s : string) : has_crlf s = false → has_crlf (lstrip s) = false.
Proof.
  induction s as [|c s IH]; [reflexivity|]. intros Hs.
  simpl lstrip. destruct (isspace c); [|exact Hs].
  apply IH. eapply has_crlf_cons, Hs.
Qed.

Lemma rstrip_no_crlf (s : string) : has_crlf s = false → has_crlf (rstrip s) = false.
Proof.
  induction s as [|c s IH]; [reflexivity|]. intros Hs.
  specialize (IH (has_crlf_cons _ _ Hs)).
  simpl rstrip. destruct (rstrip s) as [|d r] eqn:E.
  - destruct (isspace c); reflexivity.
  - destruct s as [|d' s']; [discriminate|].
    assert (d = d').
    { simpl in E. destruct (rstrip s'); [destruct (isspace d')|]; congruence. }
    subst d'.
    change (has_crlf (String c (String d r)))
      with ((Ascii.eqb c CR && Ascii.eqb d LF) || has_crlf (String d r)).
    change (has_crlf (String c (String d s')))
      with ((Ascii.eqb c CR && Ascii.eqb d LF) || has_crlf (String d s')) in Hs.
    apply orb_false_elim in Hs as [-> _]. exact IH.
Qed.

Lemma strip_no_crlf (s : string) : has_crlf s = false → has_crlf (strip s) = false.
Proof. intros H. apply rstrip_no_crlf, lstrip_no_crlf, H. Qed.

End StrProps.

(** ** The response builder *)

Module RespondProps.
Import Py Str Server StrProps.
Local Open Scope string_scope.
Local Open Scope bool_scope.

Lemma split_crlf_unlines (lines : list string) (rest : string) :
  Forall (λ l, has_crlf l = false) lines →
  split_crlf (unlines lines rest) = (lines ++ split_crlf rest)%list.
Proof.
  induction 1 as [|l lines Hl _ IH]; [reflexivity|].
  simpl. rewrite split_crlf_line by assumption. now rewrite IH.
Qed.

Lemma respond_unlines status d version body content_type connection :
  respond status ("Date: " ++ d ++ crlf) version body content_type connection
  = unlines
      ((version ++ " " ++ of_nat (value status) ++ " " ++ phrase status)
         :: ("Date: " ++ d) :: ("Content-Type: " ++ content_type)
         :: List.app
              (if truthy body then ["Content-Length: " ++ of_nat (len body)] else [])
              (if (version =? "HTTP/1.1") && truthy_opt connection
               then ["Connection: " ++ default "" connection]
               else if Nat.eqb (value status) 400 then ["Connection: close"] else []))
      (crlf ++ (if Nat.eqb (value status) 204 then "" else body)).
Proof.
  unfold respond, unlines.
  change (value NO_CONTENT) with 204%nat.
  destruct (truthy body), ((version =? "HTTP/1.1") && truthy_opt connection),
    (Nat.eqb (value status) 400), (Nat.eqb (value status) 204);
    simpl negb; cbv iota; simpl foldr;
    rewrite ?app_assoc, ?app_nil_r; reflexivity.
Qed.

Lemma no_crlf_status_line status version :
  has_crlf version = false → has_crlf (phrase status) = false →
  has_crlf (version ++ " " ++ of_nat (value status) ++ " " ++ phrase status) = false.
Proof.
  intros Hv Hp.
  apply has_crlf_app_char; [assumption | discriminate |].
  apply has_crlf_cons_other; [discriminate|].
  apply has_crlf_app_char; [apply has_crlf_of_nat | discriminate |].
  apply has_crlf_cons_other; [discriminate | assumption].
Qed.

Ltac no_crlf_literal :=
  repeat (rewrite ?app_cons, ?app_nil_l;
          apply has_crlf_cons_other; [discriminate|]);
  rewrite ?app_nil_l; first [assumption | apply has_crlf_of_nat | reflexivity].

(** The lines of a response up to its body. *)
Lemma respond_lines status d version body content_type connection :
  header_safe status d version content_type connection →
  split_crlf (respond status ("Date: " ++ d ++ crlf) version body content_type connection)
  = ((version ++ " " ++ of_nat (value status) ++ " " ++ phrase status)
       :: ("Date: " ++ d) :: ("Content-Type: " ++ content_type)
       :: List.app
            (if truthy body then ["Content-Length: " ++ of_nat (len body)] else [])
            (List.app
               (if (version =? "HTTP/1.1") && truthy_opt connection
                then ["Connection: " ++ default "" connection]
                else if Nat.eqb (value status) 400 then ["Connection: close"] else [])
               ("" :: split_crlf (if Nat.eqb (value status) 204 then "" else body)))).
Proof.
  intros (Hv & Hp & Hd & Hc & Hn).
  rewrite respond_unlines, split_crlf_unlines.
  - simpl. rewrite <- List.app_assoc. reflexivity.
  - constructor; [now apply no_crlf_status_line|].
    constructor; [no_crlf_literal|].
    constructor; [no_crlf_literal|].
    apply Forall_app. split.
    + destruct (truthy body); repeat constructor. no_crlf_literal.
    + destruct ((version =? "HTTP/1.1") && truthy_opt connection);
        [|destruct (Nat.eqb (value status) 400)]; repeat constructor.
      no_crlf_literal.
Qed.

Lemma respond_header_lines status d version body content_type connection :
  header_safe status d version content_type connection →
  header_lines (respond status ("Date: " ++ d ++ crlf) version body content_type connection)
  = ("Date: " ++ d) :: ("Content-Type: " ++ content_type)
      :: List.app
           (if truthy body then ["Content-Length: " ++ of_nat (len body)] else [])
           (if (version =? "HTTP/1.1") && truthy_opt connection
            then ["Connection: " ++ default "" connection]
            else if Nat.eqb (value status) 400 then ["Connection: close"] else []).
Proof.
  intros Hsafe. unfold header_lines. rewrite respond_lines by assumption.
  destruct (truthy body), ((version =? "HTTP/1.1") && truthy_opt connection),
    (Nat.eqb (value status) 400); reflexivity.
Qed.

Lemma respond_status_line status d version body content_type connection :
  header_safe status d version content_type connection →
  status_line (respond status ("Date: " ++ d ++ crlf) version body content_type connection)
  = version ++ " " ++ of_nat (value status) ++ " " ++ phrase status.
Proof.
  intros Hsafe. unfold status_line. now rewrite respond_lines.
Qed.

Lemma respond_connection_values status d version body content_type connection :
  header_safe status d version content_type connection →
  header_values "Connection"
    (respond status ("Date: " ++ d ++ crlf) version body content_type connection)
  = if (version =? "HTTP/1.1") && truthy_opt connection then [default "" connection]
    else if Nat.eqb (value status) 400 then ["close"] else [].
Proof.
  intros Hsafe. unfold header_values. rewrite respond_header_lines by assumption.
  destruct (truthy body), ((version =? "HTTP/1.1") && truthy_opt connection),
    (Nat.eqb (value status) 400); reflexivity.
Qed.

Lemma respond_length_values status d version body content_type connection :
  header_safe status d version content_type connection →
  header_values "Content-Length"
    (respond status ("Date: " ++ d ++ crlf) version body content_type connection)
  = if truthy body then [of_nat (len body)] else [].
Proof.
  intros Hsafe. unfold header_values. rewrite respond_header_lines by assumption.
  destruct (truthy body), ((version =? "HTTP/1.1") && truthy_opt connection),
    (Nat.eqb (value status) 400); reflexivity.
Qed.

(** C3, as the code has it.  In a response built by [respond]: under
    HTTP/1.1 with a (non-empty) negotiated directive the only
    [Connection] field is that directive; otherwise, if the status is
    exactly 400, it is [Connection: close]; otherwise there is no
    [Connection] field. *)
Theorem C3_connection_header status d version body content_type connection :
  header_safe status d version content_type connection →
  let values :=
    header_values "Connection"
      (respond status ("Date: " ++ d ++ crlf) version body content_type connection) in
  (version = "HTTP/1.1" ∧ truthy_opt connection = true →
     values = [default "" connection])
  ∧ (¬ (version = "HTTP/1.1" ∧ truthy_opt connection = true) →
     value status = 400%nat → values = ["close"])
  ∧ (¬ (version = "HTTP/1.1" ∧ truthy_opt connection = true) →
     value status ≠ 400%nat → values = []).
Proof.
  intros Hsafe values. subst values.
  rewrite respond_connection_values by assumption.
  destruct (String.eqb_spec version "HTTP/1.1") as [Hv|Hv];
    destruct (truthy_opt connection) eqn:Hc; simpl;
    destruct (Nat.eqb_spec (value status) 400) as [Hs|Hs];
    (split; [|split]); intros;
    solve [ reflexivity | contradiction | exfalso; intuition congruence ].
Qed.

Lemma C3_connection_header_witness :
  header_values "Connection"
    (respond BAD_REQUEST ("Date: Thu, 01 Jan 1970 00:00:00 GMT" ++ crlf) "HTTP/1.0"
             "<h1>400 Bad Request</h1>" "text/html" None)
  = ["close"]
  ∧ header_values "Connection"
      (respond OK ("Date: Thu, 01 Jan 1970 00:00:00 GMT" ++ crlf) "HTTP/1.1"
               "<html>" "text/html" (Some "keep-alive"))
    = ["keep-alive"].
Proof.
  split.
  - apply (C3_connection_header BAD_REQUEST "Thu, 01 Jan 1970 00:00:00 GMT"
             "HTTP/1.0" "<h1>400 Bad Request</h1>" "text/html" None).
    + repeat split; reflexivity.
    + intros [H _]. discriminate H.
    + reflexivity.
  - apply (C3_connection_header OK "Thu, 01 Jan 1970 00:00:00 GMT"
             "HTTP/1.1" "<html>" "text/html" (Some "keep-alive")).
    + repeat split; reflexivity.
    + split; reflexivity.
Defined.

(** C3, as the specification words it, fails for a 404 under HTTP/1.1
    without a negotiated directive: the response has no [Connection]
    field, where the specification's policy asks for [close]. *)
Lemma C3_counterexample :
  header_safe NOT_FOUND "Thu, 01 Jan 1970 00:00:00 GMT" "HTTP/1.1" "text/html" None
  ∧ header_values "Connection"
      (respond NOT_FOUND ("Date: Thu, 01 Jan 1970 00:00:00 GMT" ++ crlf) "HTTP/1.1"
               "<h1>404 Not Found</h1>" "text/html" None)
    = []
  ∧ spec_connection_values NOT_FOUND "HTTP/1.1" None = ["close"].
Proof. repeat split; reflexivity. Qed.

End RespondProps.

(** ** Reading a request *)

Module ParseProps.
Import Py Str Server StrProps.
Local Open Scope string_scope.
Local Open Scope bool_scope.

(** *** The receive loop, case by case *)

Lemma recv_loop_stopped e pending raw w :
  stopped e w = true → recv_loop e pending raw w = (Ok None, tick w).
Proof. intros H. destruct pending as [|[]]; simpl; rewrite H; reflexivity. Qed.

Lemma recv_loop_closed e raw w :
  stopped e w = false →
  recv_loop e [] raw w
  = (Raise ConnectionBroken,
     stderr_write ("connection disrupted" ++ nl) (tick (tick w))).
Proof. intros H. simpl. rewrite H. reflexivity. Qed.

Lemma recv_loop_eof e rest raw w :
  stopped e w = false →
  recv_loop e (Data "" :: rest) raw w
  = (Raise ConnectionBroken,
     stderr_write ("connection disrupted" ++ nl) (set_inbox rest (tick (tick w)))).
Proof. intros H. simpl. rewrite H. reflexivity. Qed.

Lemma recv_loop_data e chunk rest raw w :
  stopped e w = false → truthy chunk = true →
  recv_loop e (Data chunk :: rest) raw w
  = if contains terminator (raw ++ chunk)
    then (Ok (Some (raw ++ chunk)), set_inbox rest (tick (tick w)))
    else recv_loop e rest (raw ++ chunk) (set_inbox rest (tick (tick w))).
Proof. intros H Hc. simpl. rewrite H, Hc. reflexivity. Qed.

Lemma recv_loop_timeout e rest raw w :
  stopped e w = false →
  recv_loop e (Timeout :: rest) raw w
  = recv_loop e rest raw (set_inbox rest (tick (tick w))).
Proof. intros H. simpl. rewrite H. reflexivity. Qed.

(** What is left to receive never grows, and shrinks when the loop
    returns the header bytes. *)
Lemma recv_loop_inbox e pending raw w r w' :
  inbox w = pending →
  recv_loop e pending raw w = (r, w') →
  (length (inbox w') ≤ length pending)%nat
  ∧ (∀ x, r = Ok (Some x) → (length (inbox w') < length pending)%nat).
Proof.
  revert raw w. induction pending as [|ev rest IH]; intros raw w Hin E;
    destruct (stopped e w) eqn:Hs.
  - rewrite recv_loop_stopped in E by assumption. simplify_eq/=.
    rewrite Hin. split; [reflexivity | discriminate].
  - rewrite recv_loop_closed in E by assumption. simplify_eq/=.
    rewrite Hin. split; [reflexivity | discriminate].
  - rewrite recv_loop_stopped in E by assumption. simplify_eq/=.
    rewrite Hin. split; [reflexivity | discriminate].
  - destruct ev as [chunk|].
    + destruct (truthy chunk) eqn:Hc.
      * rewrite recv_loop_data in E by assumption.
        destruct (contains terminator (raw ++ chunk)).
        -- simplify_eq/=. split; [lia | intros; lia].
        -- apply IH in E as [E1 E2]; [|reflexivity].
           simpl. split; [lia | intros x Hx; specialize (E2 x Hx); lia].
      * apply truthy_false in Hc as ->.
        rewrite recv_loop_eof in E by assumption. simplify_eq/=.
        split; [lia | discriminate].
    + rewrite recv_loop_timeout in E by assumption.
      apply IH in E as [E1 E2]; [|reflexivity].
      simpl. split; [lia | intros x Hx; specialize (E2 x Hx); lia].
Qed.

Lemma recv_loop_raises e pending raw w ex w' :
  recv_loop e pending raw w = (Raise ex, w') → ex = ConnectionBroken.
Proof.
  revert raw w. induction pending as [|ev rest IH]; intros raw w E;
    destruct (stopped e w) eqn:Hs.
  - rewrite recv_loop_stopped in E by assumption. discriminate.
  - rewrite recv_loop_closed in E by assumption. congruence.
  - rewrite recv_loop_stopped in E by assumption. discriminate.
  - destruct ev as [chunk|].
    + destruct (truthy chunk) eqn:Hc.
      * rewrite recv_loop_data in E by assumption.
        destruct (contains terminator (raw ++ chunk)); [discriminate|eauto].
      * apply truthy_false in Hc as ->.
        rewrite recv_loop_eof in E by assumption. congruence.
    + rewrite recv_loop_timeout in E by assumption. eauto.
Qed.

Lemma parse_text_inbox e raw w r w' :
  parse_text e raw w = (r, w') → inbox w' = inbox w.
Proof.
  unfold parse_text. intros E.
  repeat match type of E with
         | (if ?c then _ else _) = _ => destruct c
         | (match ?l with _ => _ end) = _ => destruct l
         | (let '(_, _) := ?p in _) = _ => destruct p
         end; simplify_eq/=; reflexivity.
Qed.

(** [parse_request] fails with [ValueError] only. *)
Lemma parse_text_raises e raw w ex w' :
  parse_text e raw w = (Raise ex, w') → ∃ msg, ex = ValueError msg.
Proof.
  unfold parse_text. intros E.
  repeat match type of E with
         | (if ?c then _ else _) = _ => destruct c
         | (match ?l with _ => _ end) = _ => destruct l
         | (let '(_, _) := ?p in _) = _ => destruct p
         end; simplify_eq/=; eauto.
Qed.

Lemma parse_request_raises e w ex w' :
  parse_request e w = (Raise ex, w') → ∃ msg, ex = ValueError msg.
Proof.
  unfold parse_request. intros E.
  destruct (recv_loop e (inbox w) "" w) as [[[raw|]|ex'] w1] eqn:Er.
  - eapply parse_text_raises, E.
  - discriminate.
  - simplify_eq. apply recv_loop_raises in Er as ->. eexists. reflexivity.
Qed.

Lemma parse_request_inbox e w r w' :
  parse_request e w = (r, w') →
  (length (inbox w') ≤ length (inbox w))%nat
  ∧ (∀ x, r = Ok (Some x) → (length (inbox w') < length (inbox w))%nat).
Proof.
  unfold parse_request. intros E.
  destruct (recv_loop e (inbox w) "" w) as [[[raw|]|ex'] w1] eqn:Er;
    apply recv_loop_inbox in Er as [E1 E2]; try reflexivity.
  - apply parse_text_inbox in E as E'. rewrite E'.
    split; [exact E1 | intros; eapply E2; reflexivity].
  - simplify_eq. split; [exact E1 | discriminate].
  - simplify_eq. split; [exact E1 | discriminate].
Qed.
End ParseProps.

(** ** Termination of the handler *)

Module HandlerProps.
Import Py Str Server StrProps ParseProps.
Local Open Scope string_scope.
Local Open Scope bool_scope.

Lemma on_exception_inbox ex version connection w r w' :
  on_exception ex version connection w = (r, w') → inbox w' = inbox w.
Proof. destruct ex; intros; simplify_eq/=; reflexivity. Qed.

Lemma on_exception_must_close ex version connection w r w' :
  on_exception ex version connection w = (Ok (Some r), w') → must_close r = true.
Proof.
  destruct ex; intros; simplify_eq/=; unfold must_close; simpl;
    apply orb_true_r.
Qed.

(** A reply that keeps the connection open was made from a request
    just received. *)
Lemma try_request_inbox e w r w' :
  try_request e w = (Ok (Some r), w') → must_close r = false →
  (length (inbox w') < length (inbox w))%nat.
Proof.
  unfold try_request. intros E Hr.
  destruct (parse_request e w) as [[[req|]|ex] w1] eqn:Ep.
  - apply parse_request_inbox in Ep as [_ Ep]. specialize (Ep _ eq_refl).
    destruct (get_file e (uri req)) as [file|ex].
    + destruct (open_read e file) as [data|ex].
      * simplify_eq. exact Ep.
      * apply on_exception_must_close in E. congruence.
    + apply on_exception_must_close in E. congruence.
  - discriminate.
  - apply on_exception_must_close in E. congruence.
Qed.

Lemma cycle_continue e w w' :
  cycle e w = (Ok Continue, w') → (length (inbox w') < length (inbox w))%nat.
Proof.
  unfold cycle, is_set. intros E.
  destruct (stopped e w); [discriminate|].
  destruct (try_request e (tick w)) as [[[r|]|ex] w1] eqn:Et; try discriminate.
  destruct (must_close r) eqn:Hr; [discriminate|].
  apply try_request_inbox in Et; [|assumption].
  destruct (stopped e (sendall (response_of e r w1) w1));
    match type of E with
    | (let (_, _) := select ?t ?w in _) = _ =>
        unfold select in E; destruct (readable w) as [|[] ?]
    end; simplify_eq/=; exact Et.
Qed.

Lemma handler_loop_total (fuel : nat) e w :
  (length (inbox w) < fuel)%nat → is_Some (handler_loop fuel e w).
Proof.
  revert w. induction fuel as [|fuel IH]; intros w Hw; [lia|].
  simpl. destruct (cycle e w) as [[[]|ex] w1] eqn:Ec; [eauto | | eauto].
  apply IH. apply cycle_continue in Ec. lia.
Qed.

(** [handler] returns, whatever the peer sends. *)
Lemma handler_total e w : is_Some (handler e w).
Proof.
  unfold handler.
  destruct (handler_loop_total (S (length (inbox (inc_active w)))) e (inc_active w))
    as [[r w1] ->]; [lia | eauto].
Qed.

(** More fuel does not change the result. *)
Lemma handler_loop_fuel (fuel fuel' : nat) e w res :
  handler_loop fuel e w = Some res → (fuel ≤ fuel')%nat →
  handler_loop fuel' e w = Some res.
Proof.
  revert fuel' w. induction fuel as [|fuel IH]; intros fuel' w E Hle; [discriminate|].
  destruct fuel' as [|fuel']; [lia|]. simpl in *.
  destruct (cycle e w) as [[[]|ex] w1]; auto. apply IH; [assumption | lia].
Qed.
End HandlerProps.

(** ** Paths *)

Module PathProps.
Import Py Str PosixPath StrProps.
Local Open Scope string_scope.
Local Open Scope bool_scope.

(** *** Splitting and joining *)

Lemma split_char_cons (c : ascii) (s : string) :
  ∃ h t, split_char c s = h :: t.
Proof.
  destruct s as [|d s]; simpl; [eauto|].
  destruct (Ascii.eqb d c); [eauto|]. destruct (split_char c s); eauto.
Qed.

Lemma split_char_app (c : ascii) (a b : string) :
  split_char c (a ++ String c b) = (split_char c a ++ split_char c b)%list.
Proof.
  induction a as [|d a IH].
  - rewrite app_nil_l. simpl. now rewrite Ascii.eqb_refl.
  - rewrite app_cons. simpl. destruct (Ascii.eqb d c); rewrite IH.
    + reflexivity.
    + destruct (split_char_cons c a) as (h & t & ->). reflexivity.
Qed.

Lemma split_char_free (c : ascii) (s : string) :
  Forall (free_of c) (split_char c s).
Proof.
  induction s as [|d s IH]; [repeat constructor|].
  simpl. destruct (Ascii.eqb d c) eqn:Hd.
  - constructor; [reflexivity | exact IH].
  - destruct (split_char c s) as [|h t]; [repeat constructor|].
    + unfold free_of. simpl. now rewrite Hd.
    + inversion IH as [|? ? Hh Ht]; subst. constructor; [|exact Ht].
      unfold free_of in *. simpl. now rewrite Hd, Hh.
Qed.

Lemma split_char_join (cs : list string) :
  cs ≠ [] → Forall (free_of sep) cs → split_char sep (Str.join "/" cs) = cs.
Proof.
  induction 2 as [|p ps Hp Hps IH]; [congruence|].
  destruct ps as [|q ps]; [exact Hp|].
  change (Str.join "/" (p :: q :: ps)) with (p ++ String sep (Str.join "/" (q :: ps))).
  rewrite split_char_app, Hp, IH by discriminate. reflexivity.
Qed.

Lemma split_path_components (p : string) :
  Forall (λ c, component c ∧ free_of sep c) (split_path p).
Proof.
  unfold split_path. apply Forall_forall. intros c Hc.
  apply list_elem_of_filter in Hc as [Hc Hin]. split; [exact Hc|].
  pose proof (split_char_free sep p) as H.
  rewrite Forall_forall in H. auto.
Qed.

Lemma filter_components (cs : list string) :
  Forall component cs →
  filter (λ c, truthy c && negb (c =? ".") = true) cs = cs.
Proof.
  induction 1 as [|c cs Hc _ IH]; [reflexivity|].
  rewrite filter_cons_True by exact Hc. now rewrite IH.
Qed.

(** Joining components under the root directory and splitting the
    result gives the components back. *)
Lemma split_path_join (cs : list string) :
  Forall (λ c, component c ∧ free_of sep c) cs →
  split_path ("/" ++ Str.join "/" cs) = cs.
Proof.
  intros H. unfold split_path.
  change ("/" ++ Str.join "/" cs) with (String sep (Str.join "/" cs)).
  change (split_char sep (String sep (Str.join "/" cs)))
    with ("" :: split_char sep (Str.join "/" cs)).
  rewrite filter_cons_False by (simpl; discriminate).
  destruct cs as [|c cs]; [reflexivity|].
  rewrite split_char_join;
    [| discriminate | eapply Forall_impl; [exact H|]; intros ? [_ ?]; assumption ].
  apply filter_components. eapply Forall_impl; [exact H|].
  intros ? [? _]; assumption.
Qed.

(** *** The order on component lists and the common prefix *)

Lemma list_compare_antisym (a b : list string) :
  list_compare a b = CompOpp (list_compare b a).
Proof.
  revert b. induction a as [|x a IH]; intros [|y b]; try reflexivity.
  simpl. rewrite (String.compare_antisym y x).
  destruct (String.compare x y); simpl; auto.
Qed.

Lemma list_compare_eq (a b : list string) :
  list_compare a b = Eq → a = b.
Proof.
  revert b. induction a as [|x a IH]; intros [|y b]; try discriminate; [reflexivity|].
  simpl. destruct (String.compare x y) eqn:E; try discriminate.
  apply String.compare_eq_iff in E as ->. intros H. now rewrite (IH b H).
Qed.

(** On lists in order the loop of [commonpath] never indexes out of
    range, and what it returns starts both lists. *)
Lemma common_loop_ordered (s1 s2 : list string) :
  list_compare s1 s2 ≠ Gt →
  ∃ common, common_loop s1 s2 = Ok common
            ∧ common `prefix_of` s1 ∧ common `prefix_of` s2.
Proof.
  revert s2. induction s1 as [|c s1 IH]; intros s2 Hle.
  - exists []. repeat split; apply prefix_nil.
  - destruct s2 as [|d s2]; [simpl in Hle; congruence|].
    simpl. destruct (String.eqb_spec c d) as [->|Hcd].
    + simpl in Hle.
      assert (String.compare d d = Eq) as Hdd.
      { pose proof (String.compare_antisym d d) as H.
        destruct (String.compare d d); simpl in H; congruence. }
      rewrite Hdd in Hle.
      destruct (IH s2 Hle) as (common & -> & H1 & H2).
      exists (d :: common). repeat split; now apply prefix_cons.
    + exists []. repeat split; apply prefix_nil.
Qed.

(** [commonpath] of two absolute paths: no exception, and the result
    spells out components that start both paths. *)
Lemma commonpath_two (p q : string) :
  isabs p = true → isabs q = true →
  ∃ common, commonpath [p; q] = Ok ("/" ++ Str.join "/" common)
            ∧ common `prefix_of` split_path p ∧ common `prefix_of` split_path q.
Proof.
  intros Hp Hq. unfold commonpath, py_min, py_max.
  simpl forallb. rewrite Hp, Hq. simpl.
  pose proof (list_compare_antisym (split_path p) (split_path q)) as Hanti.
  destruct (list_compare (split_path q) (split_path p)) eqn:Hc; simpl in Hanti.
  - apply list_compare_eq in Hc. rewrite Hc in *.
    destruct (common_loop_ordered (split_path p) (split_path p))
      as (common & -> & H1 & H2); [congruence|].
    exists common. auto.
  - destruct (common_loop_ordered (split_path q) (split_path p))
      as (common & -> & H1 & H2); [congruence|].
    exists common. auto.
  - destruct (common_loop_ordered (split_path p) (split_path q))
      as (common & -> & H1 & H2); [congruence|].
    exists common. auto.
Qed.

(** When [commonpath] of two absolute paths is the first path, the
    second lies inside the first. *)
Lemma commonpath_inside (root p common : string) :
  isabs root = true → isabs p = true →
  commonpath [root; p] = Ok common → common = root → inside root p.
Proof.
  intros Hr Hp E ->.
  destruct (commonpath_two root p Hr Hp) as (cs & E' & H1 & H2).
  assert (root = "/" ++ Str.join "/" cs) as Eroot by congruence.
  unfold inside. rewrite Eroot at 1. rewrite split_path_join; [exact H2|].
  destruct H1 as [k Hk]. pose proof (split_path_components root) as H.
  rewrite Hk in H. now apply Forall_app in H as [H _].
Qed.

(** *** Absolute paths stay absolute *)

Lemma isabs_cons (p : string) : isabs p = true → ∃ r, p = String sep r.
Proof.
  unfold isabs. destruct p as [|c r]; intros H; [discriminate H|].
  change (Ascii.eqb sep c && true = true) in H.
  rewrite andb_true_r in H. apply Ascii.eqb_eq in H as <-. eauto.
Qed.

Lemma isabs_join (a b : string) : isabs a = true → isabs (join a b) = true.
Proof.
  intros Ha. unfold join.
  destruct (startswith "/" b) eqn:Hb; [exact Hb|].
  destruct (isabs_cons a Ha) as [r ->]. simpl orb. simpl negb. cbv iota.
  destruct (endswith_char sep (String sep r)); reflexivity.
Qed.

Lemma initial_slashes_abs (p : string) :
  isabs p = true → initial_slashes p = 1%nat ∨ initial_slashes p = 2%nat.
Proof.
  unfold isabs, initial_slashes. intros ->.
  destruct (startswith "//" p && negb (startswith "///" p)); auto.
Qed.

Lemma isabs_normpath (p : string) : isabs p = true → isabs (normpath p) = true.
Proof.
  intros Hp. unfold normpath.
  destruct (initial_slashes_abs p Hp) as [-> | ->];
    destruct (isabs_cons p Hp) as [r ->]; reflexivity.
Qed.

Lemma isabs_abspath (cwd p : string) : isabs p = true → isabs (abspath cwd p) = true.
Proof. intros Hp. unfold abspath. rewrite Hp. now apply isabs_normpath. Qed.
End PathProps.

(** ** The path resolver *)

Module GetFileProps.
Import Py Str PosixPath Server StrProps PathProps.
Local Open Scope string_scope.
Local Open Scope bool_scope.

Lemma isabs_candidate e uri :
  isabs (ROOT_DIR e) = true → isabs (candidate e uri) = true.
Proof. intros Hroot. unfold candidate. now apply isabs_abspath, isabs_join. Qed.

(** [get_file] in terms of the candidate path. *)
Lemma get_file_candidate e uri :
  get_file e uri
  = (common ←! commonpath [ROOT_DIR e; candidate e uri];
     if negb (common =? ROOT_DIR e) then
       Raise (PermissionError "Forbidden: out of bounds traversal")
     else if negb (Os.exists_ (fs e) (candidate e uri))
             || negb (Os.isfile (fs e) (candidate e uri)) then
       Raise (FileNotFoundError
                ((if uri =? "/" then "/index.html" else uri) ++ " not found in directory"))
     else if negb (Os.access_r (fs e) (candidate e uri)) then
       Raise (PermissionError "Permission denied")
     else Ok (candidate e uri)).
Proof. reflexivity. Qed.




(** C7.  For every document root (and file system), resolving [/]
    gives what resolving [/index.html] gives: the same path or the
    same failure. *)
Theorem C7_root_is_index e : get_file e "/" = get_file e "/index.html".
Proof. reflexivity. Qed.

Lemma readable_file_stat fs p :
  Os.isfile fs p = true → Os.access_r fs p = true →
  ∃ data, Os.stat fs p = Some (Os.RegFile data true).
Proof.
  unfold Os.isfile, Os.access_r.
  destruct (Os.stat fs p) as [[data []| |]|]; intros; try discriminate; eauto.
Qed.

(** A path that [get_file] returns can be opened and read. *)
Lemma get_file_readable e uri file :
  get_file e uri = Ok file → ∃ data, open_read e file = Ok data.
Proof.
  rewrite get_file_candidate. intros Hok.
  destruct (commonpath [ROOT_DIR e; candidate e uri]) as [common|]; [|discriminate].
  unfold bind in Hok.
  destruct (negb (common =? ROOT_DIR e)); [discriminate|].
  destruct (Os.exists_ (fs e) (candidate e uri)); [|discriminate].
  destruct (Os.isfile (fs e) (candidate e uri)) eqn:H1; [|discriminate].
  destruct (Os.access_r (fs e) (candidate e uri)) eqn:H2; [|discriminate].
  simpl in Hok. injection Hok as <-.
  destruct (readable_file_stat _ _ H1 H2) as [data Hst].
  exists data. unfold open_read. now rewrite Hst.
Qed.
End GetFileProps.

(** ** One iteration of the handler *)

Module CycleProps.
Import Py Str Server StrProps ParseProps HandlerProps.
Local Open Scope string_scope.
Local Open Scope bool_scope.

(** *** What reading a request leaves alone *)

Lemma untouched_refl w : untouched w w.
Proof. repeat split. Qed.

Lemma untouched_trans w1 w2 w3 :
  untouched w1 w2 → untouched w2 w3 → untouched w1 w3.
Proof.
  unfold untouched. intros (?&?&?&?&?) (?&?&?&?&?). repeat split; congruence.
Qed.

Lemma recv_loop_untouched e pending raw w r w' :
  recv_loop e pending raw w = (r, w') → untouched w w'.
Proof.
  revert raw w. induction pending as [|ev rest IH]; intros raw w E;
    destruct (stopped e w) eqn:Hs.
  - rewrite recv_loop_stopped in E by assumption. simplify_eq. repeat split.
  - rewrite recv_loop_closed in E by assumption. simplify_eq. repeat split.
  - rewrite recv_loop_stopped in E by assumption. simplify_eq. repeat split.
  - destruct ev as [chunk|].
    + destruct (truthy chunk) eqn:Hc.
      * rewrite recv_loop_data in E by assumption.
        destruct (contains terminator (raw ++ chunk)).
        -- simplify_eq. repeat split.
        -- apply IH in E. eapply untouched_trans; [|exact E]. repeat split.
      * apply truthy_false in Hc as ->.
        rewrite recv_loop_eof in E by assumption. simplify_eq. repeat split.
    + rewrite recv_loop_timeout in E by assumption.
      apply IH in E. eapply untouched_trans; [|exact E]. repeat split.
Qed.

Lemma parse_text_untouched e raw w r w' :
  parse_text e raw w = (r, w') → untouched w w'.
Proof.
  unfold parse_text. intros E.
  repeat match type of E with
         | (if ?c then _ else _) = _ => destruct c
         | (match ?l with _ => _ end) = _ => destruct l
         | (let '(_, _) := ?p in _) = _ => destruct p
         end; simplify_eq; repeat split.
Qed.

Lemma parse_request_untouched e w r w' :
  parse_request e w = (r, w') → untouched w w'.
Proof.
  unfold parse_request. intros E.
  destruct (recv_loop e (inbox w) "" w) as [[[raw|]|ex'] w1] eqn:Er;
    apply recv_loop_untouched in Er.
  - apply parse_text_untouched in E. eapply untouched_trans; eauto.
  - now simplify_eq.
  - now simplify_eq.
Qed.

Lemma on_exception_untouched ex version connection w r w' :
  on_exception ex version connection w = (r, w') → untouched w w'.
Proof. destruct ex; intros; simplify_eq/=; repeat split. Qed.

Lemma try_request_untouched e w r w' :
  try_request e w = (r, w') → untouched w w'.
Proof.
  unfold try_request. intros E.
  destruct (parse_request e w) as [[[req|]|ex] w1] eqn:Ep;
    apply parse_request_untouched in Ep.
  - destruct (get_file e (uri req)) as [file|ex].
    + destruct (open_read e file) as [data|ex].
      * now simplify_eq.
      * apply on_exception_untouched in E. eapply untouched_trans; eauto.
    + apply on_exception_untouched in E. eapply untouched_trans; eauto.
  - now simplify_eq.
  - apply on_exception_untouched in E. eapply untouched_trans; eauto.
Qed.

(** *** The end of an iteration *)

Lemma must_close_closing r : must_close r = true ↔ closing r.
Proof.
  unfold must_close, closing.
  rewrite !orb_true_iff, String.eqb_eq, bool_decide_eq_true, Nat.leb_le.
  tauto.
Qed.

Lemma must_close_not_closing r : must_close r = false ↔ ¬ closing r.
Proof.
  rewrite <- must_close_closing. destruct (must_close r); split; congruence.
Qed.

(** An iteration whose reply ends the connection. *)
Lemma cycle_closing e w r w1 :
  stopped e w = false →
  try_request e (tick w) = (Ok (Some r), w1) →
  must_close r = true →
  cycle e w = (Ok Break, sendall (response_of e r w1) w1).
Proof.
  intros Hs Ht Hr. unfold cycle, is_set. now rewrite Hs, Ht, Hr.
Qed.

(** An iteration whose reply keeps the connection: the idle wait. *)
Lemma cycle_idle e w r w1 :
  stopped e w = false →
  try_request e (tick w) = (Ok (Some r), w1) →
  must_close r = false →
  let sent := sendall (response_of e r w1) w1 in
  let t := if stopped e sent then Tenth else Seconds (keepalive_timeout sent) in
  cycle e w
  = (Ok (if (select t (tick sent)).1 then Continue else Break),
     (select t (tick sent)).2).
Proof.
  intros Hs Ht Hr. unfold cycle, is_set. rewrite Hs, Ht, Hr.
  simpl. destruct (stopped e (sendall (response_of e r w1) w1));
    destruct (readable w1) as [|[] ?]; reflexivity.
Qed.

(** An iteration that starts after the shutdown flag was set, or in
    which [parse_request] returns [None], sends nothing. *)
Lemma cycle_stopped e w :
  stopped e w = true → cycle e w = (Ok Break, tick w).
Proof. intros Hs. unfold cycle, is_set. now rewrite Hs. Qed.

Lemma handler_loop_break e w w' fuel :
  cycle e w = (Ok Break, w') → handler_loop (S fuel) e w = Some (Ok (), w').
Proof. intros E. simpl. now rewrite E. Qed.

(** *** The handler as a whole *)

Lemma cycle_active e w r w' : cycle e w = (r, w') → active w' = active w.
Proof.
  unfold cycle, is_set. intros E.
  destruct (stopped e w); [now simplify_eq|].
  destruct (try_request e (tick w)) as [[[rep|]|ex] w1] eqn:Et;
    apply try_request_untouched in Et as (_ & _ & _ & Hact & _);
    simpl in Hact; try (simplify_eq; simpl; congruence).
  destruct (must_close rep); [simplify_eq; simpl; congruence|].
  destruct (stopped e (sendall (response_of e rep w1) w1));
    unfold select in E; simpl in E; destruct (readable w1) as [|[] ?];
    simpl in E; simplify_eq; simpl; congruence.
Qed.

Lemma handler_loop_active fuel e w r w' :
  handler_loop fuel e w = Some (r, w') → active w' = active w.
Proof.
  revert w. induction fuel as [|fuel IH]; intros w E; [discriminate|].
  simpl in E. destruct (cycle e w) as [[[]|ex] w1] eqn:Ec;
    apply cycle_active in Ec; simplify_eq; [congruence | | congruence].
  apply IH in E. congruence.
Qed.

(** Whatever happens on the connection, [handler] ends with the socket
    closed and with the activity counter where it found it. *)
Lemma handler_finally e w r w' :
  (0 ≤ active w)%Z → handler e w = Some (r, w') →
  closed w' = true ∧ active w' = active w.
Proof.
  unfold handler. intros Ha E.
  destruct (handler_loop _ e (inc_active w)) as [[r1 w1]|] eqn:El; [|discriminate].
  apply handler_loop_active in El. simplify_eq. split; [reflexivity|].
  simpl in *. rewrite El. unfold Activity.dec_active, Activity.inc_active. lia.
Qed.

(** *** From an iteration to the handler *)

Lemma loop_reaches_next e w w1 w2 :
  loop_reaches e w w1 → cycle e w1 = (Ok Continue, w2) → loop_reaches e w w2.
Proof.
  induction 1 as [w|w wa w1 Hc _ IH]; intros Hnext.
  - eapply reaches_on; [exact Hnext | apply reaches_here].
  - eapply reaches_on; [exact Hc | now apply IH].
Qed.

Lemma handler_loop_from e w w' fuel res :
  loop_reaches e w w' → handler_loop fuel e w' = Some res →
  ∃ fuel', handler_loop fuel' e w = Some res.
Proof.
  induction 1 as [w|w w1 w' Hc _ IH]; intros E; [eauto|].
  destruct (IH E) as [f Hf]. exists (S f). simpl. now rewrite Hc.
Qed.

(** When the loop of [handler] comes to an iteration, the way the loop
    ends from there is the way [handler] ends, after its [finally]
    block. *)
Lemma handler_from e w0 w fuel r w' :
  loop_reaches e (inc_active w0) w →
  handler_loop fuel e w = Some (r, w') →
  handler e w0 = Some (r, finally w').
Proof.
  intros Hreach E.
  destruct (handler_loop_from _ _ _ _ _ Hreach E) as [f Hf].
  unfold handler.
  destruct (handler_loop_total (S (length (inbox (inc_active w0)))) e (inc_active w0))
    as [res Hres]; [lia|].
  rewrite Hres.
  pose proof (handler_loop_fuel _ (f + S (length (inbox (inc_active w0)))) _ _ _ Hf
                ltac:(lia)) as H1.
  pose proof (handler_loop_fuel _ (f + S (length (inbox (inc_active w0)))) _ _ _ Hres
                ltac:(lia)) as H2.
  rewrite H1 in H2. now simplify_eq.
Qed.

(** C2.  Take a run of [handler], entered in [w0], whose loop has come
    to an iteration (in [w]) that gets as far as a reply [r].  The
    iteration sends the reply.  If the request's version is HTTP/1.0,
    or the negotiated directive is [close], or the status is at least
    400, the loop ends there and [handler] returns: the socket is
    closed, the response is the last thing sent and nothing more has
    been read.  Otherwise the iteration enters the idle wait ([select]
    with the keep-alive timeout); if the socket does not become
    readable [handler] returns in the same way, and if it does the loop
    goes on with another iteration, whose outcome is the handler's. *)
Theorem C2_persistence e w0 w r w1 :
  loop_reaches e (inc_active w0) w →
  stopped e w = false →
  try_request e (tick w) = (Ok (Some r), w1) →
  let sent := sendall (response_of e r w1) w1 in
  outbox sent = (outbox w ++ [response_of e r w1])%list
  ∧ (closing r →
       cycle e w = (Ok Break, sent)
       ∧ (∀ fuel, handler_loop (S fuel) e w = Some (Ok (), sent))
       ∧ handler e w0 = Some (Ok (), finally sent)
       ∧ closed (finally sent) = true
       ∧ outbox (finally sent) = outbox sent
       ∧ inbox (finally sent) = inbox w1)
  ∧ (¬ closing r →
       let t := if stopped e sent then Tenth else Seconds (keepalive_timeout sent) in
       let ready := (select t (tick sent)).1 in
       let idle := (select t (tick sent)).2 in
       waits idle = (waits w ++ [t])%list
       ∧ outbox idle = outbox sent
       ∧ cycle e w = (Ok (if ready then Continue else Break), idle)
       ∧ (∀ fuel, handler_loop (S fuel) e w
                  = if ready then handler_loop fuel e idle else Some (Ok (), idle))
       ∧ (ready = true →
            loop_reaches e (inc_active w0) idle
            ∧ ∀ fuel r' w', handler_loop fuel e idle = Some (r', w') →
                            handler e w0 = Some (r', finally w'))
       ∧ (ready = false →
            handler e w0 = Some (Ok (), finally idle)
            ∧ closed (finally idle) = true
            ∧ outbox (finally idle) = outbox sent)).
Proof.
  intros Hreach Hs Ht sent.
  pose proof (try_request_untouched _ _ _ _ Ht) as (_ & Hout & Hwaits & _).
  split; [|split].
  - subst sent. simpl. now rewrite Hout.
  - intros Hr%must_close_closing.
    pose proof (cycle_closing _ _ _ _ Hs Ht Hr) as Hc.
    assert (Hloop : ∀ fuel, handler_loop (S fuel) e w = Some (Ok (), sent))
      by (intros fuel; now apply handler_loop_break).
    split; [exact Hc|]. split; [exact Hloop|].
    split; [exact (handler_from e w0 w 1 _ _ Hreach (Hloop 0%nat))|].
    split; [reflexivity|]. split; reflexivity.
  - intros Hr%must_close_not_closing t ready idle.
    assert (Hc : cycle e w = (Ok (if ready then Continue else Break), idle))
      by exact (cycle_idle _ _ _ _ Hs Ht Hr).
    assert (Hloop : ∀ fuel, handler_loop (S fuel) e w
                      = if ready then handler_loop fuel e idle else Some (Ok (), idle)).
    { intros fuel. simpl handler_loop. rewrite Hc. destruct ready; reflexivity. }
    split; [subst idle sent; simpl; now rewrite Hwaits|].
    split; [reflexivity|]. split; [exact Hc|]. split; [exact Hloop|]. split.
    + intros Hready. rewrite Hready in Hc.
      assert (Hidle : loop_reaches e (inc_active w0) idle)
        by (eapply loop_reaches_next; eauto).
      split; [exact Hidle|]. intros fuel r' w' E.
      exact (handler_from e w0 idle fuel r' w' Hidle E).
    + intros Hready. specialize (Hloop 0%nat). rewrite Hready in Hloop.
      split; [exact (handler_from e w0 w 1 _ _ Hreach Hloop)|]. split; reflexivity.
Qed.
End CycleProps.

(** ** The activity counter over starts and ends *)

Module CounterProps.
Import Py Activity Server HandlerProps CycleProps.
Local Open Scope Z_scope.

Lemma on_event_nonneg (evs : list event) (a : Z) :
  0 ≤ a → 0 ≤ fold_left on_event evs a.
Proof.
  revert a. induction evs as [|[] evs IH]; intros a Ha; simpl; auto;
    apply IH; unfold Activity.inc_active, Activity.dec_active; lia.
Qed.

(** With [n] handlers running at the start and every end the end of a
    running handler, the counter follows the starts and ends. *)
Lemma on_event_counts (evs : list event) (n : nat) :
  (∀ k, (ends (take k evs) ≤ starts (take k evs) + n)%nat) →
  (ends evs ≤ starts evs + n)%nat
  ∧ fold_left on_event evs (Z.of_nat n) = Z.of_nat (starts evs + n - ends evs).
Proof.
  revert n. induction evs as [|ev evs IH]; intros n Hpre.
  - simpl. split; [lia | f_equal; lia].
  - destruct ev; simpl.
    + destruct (IH (S n)) as [Hle Heq].
      { intros k. specialize (Hpre (S k)). simpl in Hpre. lia. }
      split; [lia|].
      replace (Activity.inc_active (Z.of_nat n)) with (Z.of_nat (S n))
        by (unfold Activity.inc_active; lia).
      rewrite Heq. f_equal. lia.
    + pose proof (Hpre 1%nat) as H1. simpl in H1.
      destruct n as [|m]; [lia|].
      destruct (IH m) as [Hle Heq].
      { intros k. specialize (Hpre (S k)). simpl in Hpre. lia. }
      split; [lia|].
      replace (Activity.dec_active (Z.of_nat (S m))) with (Z.of_nat m)
        by (unfold Activity.dec_active; lia).
      rewrite Heq. f_equal. lia.
Qed.

(** C6.  The activity counter never becomes negative, whatever starts
    and ends are applied to it.  After any sequence of handler starts
    ([inc_active]) and ends ([dec_active]) in which every end is the
    end of a handler that has started, the counter equals the number of
    handlers that have started and not yet ended; in particular it is 0
    again once as many have ended as have started.  And every run of
    [handler] is one start and one end: it increments the counter when
    it is entered, leaves it alone in its loop, returns, and decrements
    the counter in its [finally] block. *)
Theorem C6_activity_counter (evs : list event) :
  ends_follow_starts evs →
  (0 ≤ counter_after evs
   ∧ counter_after evs = Z.of_nat (starts evs - ends evs)
   ∧ (starts evs = ends evs → counter_after evs = 0))
  ∧ (∀ (evs' : list event) (a : Z), 0 ≤ a → 0 ≤ fold_left on_event evs' a)
  ∧ (∀ e w,
       ∃ r w1,
         handler_loop (S (length (inbox w))) e (inc_active w) = Some (r, w1)
         ∧ handler e w = Some (r, finally w1)
         ∧ active (inc_active w) = on_event (active w) HandlerStart
         ∧ active w1 = active (inc_active w)
         ∧ active (finally w1) = on_event (active w1) HandlerEnd).
Proof.
  intros Hfollow.
  assert (Hcount : counter_after evs = Z.of_nat (starts evs - ends evs)).
  { destruct (on_event_counts evs 0) as [_ Heq].
    - intros k. specialize (Hfollow k). lia.
    - unfold counter_after. change 0 with (Z.of_nat 0). rewrite Heq. f_equal. lia. }
  split; [|split].
  - split; [rewrite Hcount; lia|]. split; [exact Hcount|].
    intros Heq. rewrite Hcount, Heq. f_equal. lia.
  - exact on_event_nonneg.
  - intros e w.
    destruct (handler_loop_total (S (length (inbox (inc_active w)))) e (inc_active w))
      as [[r w1] El]; [lia|].
    exists r, w1. split; [exact El|].
    split; [unfold handler; now rewrite El|]. split; [reflexivity|].
    split; [eapply handler_loop_active; exact El | reflexivity].
Qed.

(** Three connections, opened and closed in an interleaved order. *)
Lemma C6_activity_counter_witness :
  counter_after
    [HandlerStart; HandlerStart; HandlerEnd; HandlerStart; HandlerEnd; HandlerEnd] = 0
  ∧ counter_after [HandlerStart; HandlerStart; HandlerEnd] = 1.
Proof.
  split.
  - apply (C6_activity_counter
             [HandlerStart; HandlerStart; HandlerEnd; HandlerStart; HandlerEnd; HandlerEnd]);
      [|reflexivity].
    intros k. do 7 (destruct k as [|k]; [simpl; lia|]). simpl. lia.
  - apply (C6_activity_counter [HandlerStart; HandlerStart; HandlerEnd]).
    intros k. do 4 (destruct k as [|k]; [simpl; lia|]). simpl. lia.
Defined.
End CounterProps.

(** ** Requests that fail to parse *)

Module RequestProps.
Import Py Str Server StrProps ParseProps HandlerProps CycleProps.
Local Open Scope string_scope.
Local Open Scope bool_scope.

(** *** Failed parsing *)

Lemma try_request_value_error e w msg w1 :
  parse_request e w = (Raise (ValueError msg), w1) →
  try_request e w = (Ok (Some bad_request_reply), print ("400 due to " ++ msg) w1).
Proof. intros E. unfold try_request. now rewrite E. Qed.

Lemma bad_request_response e w :
  startswith "HTTP/1.0 400 Bad Request" (response_of e bad_request_reply w) = true.
Proof. reflexivity. Qed.

(** C10.  When parsing the request fails in an iteration of the
    handler's loop, the failure is a [ValueError], the reply is built
    with the version ["HTTP/1.0"] that the variable had before the
    call, and the response that is sent starts with
    [HTTP/1.0 400 Bad Request], whatever version the client wrote. *)
Theorem C10_bad_request_version e w ex w1 :
  stopped e w = false →
  parse_request e (tick w) = (Raise ex, w1) →
  ∃ msg,
    ex = ValueError msg
    ∧ let w2 := print ("400 due to " ++ msg) w1 in
      let response := response_of e bad_request_reply w2 in
      try_request e (tick w) = (Ok (Some bad_request_reply), w2)
      ∧ r_version bad_request_reply = "HTTP/1.0"
      ∧ cycle e w = (Ok Break, sendall response w2)
      ∧ startswith "HTTP/1.0 400 Bad Request" response = true.
Proof.
  intros Hs Hp. destruct (parse_request_raises _ _ _ _ Hp) as [msg ->].
  exists msg. split; [reflexivity|]. intros w2 response.
  pose proof (try_request_value_error _ _ _ _ Hp) as Ht.
  split; [exact Ht|]. split; [reflexivity|].
  split; [|apply bad_request_response].
  apply (cycle_closing _ _ _ _ Hs Ht). reflexivity.
Qed.

(** *** Requests without a [Host] field *)

Lemma scan_headers_no_host lines host connection :
  ¬ carries_host lines → (scan_headers lines host connection).1 = host.
Proof.
  unfold carries_host. revert host connection.
  induction lines as [|header rest IH]; intros host connection Hno; [reflexivity|].
  simpl in *. destruct (truthy (strip header)); [|reflexivity]. simpl.
  assert (Hh : field_name header ≠ Some "host")
    by (intros H; apply Hno; now constructor).
  assert (Hrest : ¬ Exists (λ l, field_name l = Some "host") (header_block rest))
    by (intros H; apply Hno; now constructor 2).
  unfold field_name in Hh.
  destruct (partition ":" header) as [[key found] v]. destruct found; simpl.
  - destruct (String.eqb_spec (lower (strip key)) "host") as [Hk|Hk];
      [congruence|].
    destruct (lower (strip key) =? "connection"); now apply IH.
  - now apply IH.
Qed.

(** C4, as the code has it.  A request whose request line reads
    [<method> <uri> HTTP/1.1] and whose header block has no [Host]
    field fails to parse: with MissingHostHeader when the method is
    GET or HEAD, with UnsupportedMethod otherwise (the method is
    tested first).  In both cases the reply is 400 Bad Request,
    whatever the URI. *)
Theorem C4_missing_host e raw w m u :
  split_ws (hd "" (split_crlf (decode (plat e) raw))) = [m; u; "HTTP/1.1"] →
  ¬ carries_host (tl (split_crlf (decode (plat e) raw))) →
  (∃ w', parse_text e raw w
         = (Raise (if (m =? "GET") || (m =? "HEAD") then MissingHostHeader
                   else UnsupportedMethod m), w'))
  ∧ (∀ w0, recv_loop e (inbox w0) "" w0 = (Ok (Some raw), w) →
       ∃ w', try_request e w0 = (Ok (Some bad_request_reply), w')
             ∧ r_status bad_request_reply = BAD_REQUEST).
Proof.
  intros Hline Hno.
  assert (Hp : ∃ w', parse_text e raw w
         = (Raise (if (m =? "GET") || (m =? "HEAD") then MissingHostHeader
                   else UnsupportedMethod m), w')).
  { unfold parse_text.
    destruct (split_crlf_cons (decode (plat e) raw)) as (l & ls & El).
    rewrite El in *. simpl length. simpl Nat.ltb. cbv iota.
    rewrite Hline.
    destruct ((m =? "GET") || (m =? "HEAD")); simpl negb; cbv iota; [|eauto].
    pose proof (scan_headers_no_host (tl (l :: ls)) None None Hno) as Hh.
    destruct (scan_headers (tl (l :: ls)) None None) as [h c].
    simpl in Hh. subst h. rewrite String.eqb_refl. simpl. eauto. }
  split; [exact Hp|].
  intros w0 Hrecv. destruct Hp as [w' Hp].
  assert (Hq : parse_request e w0
               = (Raise (if (m =? "GET") || (m =? "HEAD") then MissingHostHeader
                         else UnsupportedMethod m), w'))
    by (unfold parse_request; now rewrite Hrecv).
  destruct ((m =? "GET") || (m =? "HEAD"));
    apply try_request_value_error in Hq; eauto.
Qed.
End RequestProps.

(** ** Disrupted connections and shutdown *)

Module DisruptionProps.
Import Py Str Server StrProps ParseProps HandlerProps CycleProps RequestProps.
Local Open Scope string_scope.
Local Open Scope bool_scope.

Lemma startswith_app (p a b : string) :
  startswith p a = true → startswith p (a ++ b) = true.
Proof.
  revert a. induction p as [|c p IH]; intros a H; [reflexivity|].
  destruct a as [|d a]; [discriminate|]. rewrite app_cons.
  simpl in *. apply andb_true_iff in H as [-> H]. now rewrite IH.
Qed.

(** What a string contains, its extensions contain. *)
Lemma contains_app (p a b : string) :
  contains p a = true → contains p (a ++ b) = true.
Proof.
  induction a as [|d a IH]; intros H.
  - simpl in H. rewrite orb_false_r in H.
    destruct p; [|discriminate]. destruct b; reflexivity.
  - rewrite app_cons. simpl in *. apply orb_true_iff in H as [H|H].
    + apply (startswith_app _ _ b) in H. rewrite app_cons in H.
      simpl in H. now rewrite H.
    + rewrite IH by assumption. apply orb_true_r.
Qed.

Lemma not_contains_app (p a b : string) :
  contains p (a ++ b) = false → contains p a = false.
Proof.
  intros H. destruct (contains p a) eqn:E; [|reflexivity].
  apply (contains_app _ _ b) in E. congruence.
Qed.

Lemma not_stopped e w n :
  (∀ t, stop_at e = Some t → (clock w + n < t)%nat) → stopped e w = false.
Proof.
  unfold stopped. intros H. destruct (stop_at e) as [t|]; [|reflexivity].
  specialize (H t eq_refl). apply Nat.leb_gt. lia.
Qed.

(** The loop of [parse_request] when the peer closes before the header
    is complete. *)
Lemma recv_loop_disrupted e pre tail raw w :
  Forall (λ ev, ev ≠ Data "") pre →
  tail = [] ∨ (∃ post, tail = Data "" :: post) →
  contains terminator (raw ++ received pre) = false →
  (∀ t, stop_at e = Some t → (clock w + 2 * length pre < t)%nat) →
  ∃ w', recv_loop e (pre ++ tail)%list raw w = (Raise ConnectionBroken, w')
        ∧ stderr w' = List.app (stderr w) ["connection disrupted" ++ nl].
Proof.
  intros Hpre Htail. revert raw w.
  induction Hpre as [|ev pre Hev _ IH]; intros raw w Hraw Hclock;
    pose proof (not_stopped _ _ _ Hclock) as Hs.
  - destruct Htail as [->|[post ->]]; simpl app.
    + rewrite recv_loop_closed by assumption. eauto.
    + rewrite recv_loop_eof by assumption. eauto.
  - simpl app. destruct ev as [chunk|].
    + assert (Hc : truthy chunk = true)
        by (apply truthy_true; intros ->; now apply Hev).
      rewrite recv_loop_data by assumption.
      simpl received in Hraw. rewrite <- app_assoc in Hraw.
      rewrite (not_contains_app _ _ _ Hraw).
      destruct (IH _ (set_inbox (pre ++ tail) (tick (tick w))) Hraw) as (w' & E & Herr).
      { intros t Ht. specialize (Hclock t Ht). simpl in *. lia. }
      eauto.
    + rewrite recv_loop_timeout by assumption.
      destruct (IH raw (set_inbox (pre ++ tail) (tick (tick w))) Hraw) as (w' & E & Herr).
      { intros t Ht. specialize (Hclock t Ht). simpl in *. lia. }
      eauto.
Qed.

(** The loop of [parse_request] when the shutdown flag becomes set
    while it reads: the flag is tested before every read, whatever has
    been read so far. *)
Lemma recv_loop_cancelled e read rest raw w :
  Forall (λ ev, ev ≠ Data "") read →
  contains terminator (raw ++ received read) = false →
  (∃ t, stop_at e = Some t ∧ (t ≤ clock w + 2 * length read)%nat) →
  ∃ w', recv_loop e (read ++ rest)%list raw w = (Ok None, w')
        ∧ outbox w' = outbox w ∧ stdout w' = stdout w ∧ stderr w' = stderr w.
Proof.
  intros Hread. revert raw w.
  induction Hread as [|ev read Hev _ IH]; intros raw w Hraw (t & Ht & Hclock).
  - rewrite recv_loop_stopped; [eauto|].
    unfold stopped. rewrite Ht. apply Nat.leb_le. simpl in Hclock. lia.
  - destruct (stopped e w) eqn:Hs; [rewrite recv_loop_stopped by assumption; eauto|].
    simpl app. destruct ev as [chunk|].
    + assert (Hc : truthy chunk = true)
        by (apply truthy_true; intros ->; now apply Hev).
      rewrite recv_loop_data by assumption.
      simpl received in Hraw. rewrite <- app_assoc in Hraw.
      rewrite (not_contains_app _ _ _ Hraw).
      destruct (IH _ (set_inbox (read ++ rest) (tick (tick w))) Hraw)
        as (w' & E & Hout & Hso & Hse).
      { exists t. split; [exact Ht | simpl in *; lia]. }
      exists w'. split; [exact E|]. split; [exact Hout|]. split; [exact Hso | exact Hse].
    + rewrite recv_loop_timeout by assumption.
      destruct (IH raw (set_inbox (read ++ rest) (tick (tick w))) Hraw)
        as (w' & E & Hout & Hso & Hse).
      { exists t. split; [exact Ht | simpl in *; lia]. }
      exists w'. split; [exact E|]. split; [exact Hout|]. split; [exact Hso | exact Hse].
Qed.

(** C9.  In an iteration of the handler's loop in which a read returns
    no bytes (the peer closed) before the reads have delivered the
    terminator, and the shutdown flag is not set by then,
    [parse_request] fails with ConnectionBroken; the handler replies
    400 Bad Request, its loop ends normally, without an exception, and
    [handler] returns.  By contrast a read that times out makes the
    loop read again with the same bytes; and the shutdown flag, tested
    before every read, makes [parse_request] return [None] as soon as
    it is found set, whatever has been read by then: the handler sends
    nothing, prints nothing and returns. *)
Theorem C9_connection_broken e w pre tail :
  inbox w = (pre ++ tail)%list →
  Forall (λ ev, ev ≠ Data "") pre →
  tail = [] ∨ (∃ post, tail = Data "" :: post) →
  contains terminator (received pre) = false →
  (∀ t, stop_at e = Some t → (clock w + 1 + 2 * length pre < t)%nat) →
  (∃ w1,
      parse_request e (tick w) = (Raise ConnectionBroken, w1)
      ∧ let w2 := print "400 due to connection disrupted" w1 in
        let response := response_of e bad_request_reply w2 in
        try_request e (tick w) = (Ok (Some bad_request_reply), w2)
        ∧ (∀ fuel, handler_loop (S fuel) e w = Some (Ok (), sendall response w2))
        ∧ startswith "HTTP/1.0 400 Bad Request" response = true
        ∧ outbox (sendall response w2) = (outbox w ++ [response])%list
        ∧ (∀ w0, loop_reaches e (inc_active w0) w →
                 handler e w0 = Some (Ok (), finally (sendall response w2))))
  ∧ (∀ rest raw w', stopped e w' = false →
       recv_loop e (Timeout :: rest) raw w'
       = recv_loop e rest raw (set_inbox rest (tick (tick w'))))
  ∧ (∀ w', stopped e w' = true →
       parse_request e w' = (Ok None, tick w')
       ∧ try_request e w' = (Ok None, tick w'))
  ∧ (∀ w' fuel, stopped e w' = false → stopped e (tick w') = true →
       handler_loop (S fuel) e w' = Some (Ok (), tick (tick w')))
  ∧ (∀ pending raw w', stopped e w' = true →
       recv_loop e pending raw w' = (Ok None, tick w'))
  ∧ (∀ w' read rest,
       inbox w' = (read ++ rest)%list →
       Forall (λ ev, ev ≠ Data "") read →
       contains terminator (received read) = false →
       stopped e w' = false →
       (∃ t, stop_at e = Some t ∧ (t ≤ clock w' + 1 + 2 * length read)%nat) →
       ∃ w1,
         parse_request e (tick w') = (Ok None, w1)
         ∧ try_request e (tick w') = (Ok None, w1)
         ∧ (∀ fuel, handler_loop (S fuel) e w' = Some (Ok (), w1))
         ∧ outbox w1 = outbox w' ∧ stdout w1 = stdout w' ∧ stderr w1 = stderr w'
         ∧ (∀ w0, loop_reaches e (inc_active w0) w' →
                  handler e w0 = Some (Ok (), finally w1))).
Proof.
  intros Hin Hpre Htail Hraw Hclock.
  split; [|split; [|split; [|split; [|split]]]].
  - destruct (recv_loop_disrupted e pre tail "" (tick w) Hpre Htail Hraw)
      as (w1 & E & _).
    { intros t Ht. specialize (Hclock t Ht). simpl. lia. }
    assert (Hp : parse_request e (tick w) = (Raise ConnectionBroken, w1)).
    { unfold parse_request. change (inbox (tick w)) with (inbox w).
      rewrite Hin. now rewrite E. }
    exists w1. split; [exact Hp|]. intros w2 response.
    pose proof (try_request_value_error _ _ _ _ Hp) as Ht.
    assert (Hloop : ∀ fuel, handler_loop (S fuel) e w = Some (Ok (), sendall response w2)).
    { intros fuel. apply handler_loop_break.
      apply (cycle_closing e w bad_request_reply w2); [|exact Ht|reflexivity].
      apply (not_stopped e w (1 + 2 * length pre)).
      intros t Hst. specialize (Hclock t Hst). lia. }
    split; [exact Ht|]. split; [exact Hloop|].
    split; [apply bad_request_response|]. split.
    + pose proof (try_request_untouched _ _ _ _ Ht) as (_ & Hout & _).
      simpl in Hout |- *. now rewrite Hout.
    + intros w0 Hreach. exact (handler_from e w0 w 1 _ _ Hreach (Hloop 0%nat)).
  - intros rest raw w' Hs. now apply recv_loop_timeout.
  - intros w' Hs.
    assert (Hp : parse_request e w' = (Ok None, tick w'))
      by (unfold parse_request; now rewrite recv_loop_stopped).
    split; [exact Hp|]. unfold try_request. now rewrite Hp.
  - intros w' fuel Hs Hs'. apply handler_loop_break.
    unfold cycle, is_set, try_request, parse_request.
    rewrite Hs. now rewrite recv_loop_stopped.
  - intros pending raw w' Hs. now apply recv_loop_stopped.
  - intros w' read rest Hin' Hread Hraw' Hs (t & Ht & Hclock').
    destruct (recv_loop_cancelled e read rest "" (tick w') Hread Hraw')
      as (w1 & E & Hout & Hso & Hse).
    { exists t. split; [exact Ht | simpl; lia]. }
    assert (Hp : parse_request e (tick w') = (Ok None, w1)).
    { unfold parse_request. change (inbox (tick w')) with (inbox w').
      rewrite Hin'. now rewrite E. }
    assert (Hq : try_request e (tick w') = (Ok None, w1))
      by (unfold try_request; now rewrite Hp).
    assert (Hloop : ∀ fuel, handler_loop (S fuel) e w' = Some (Ok (), w1)).
    { intros fuel. apply handler_loop_break.
      unfold cycle, is_set. now rewrite Hs, Hq. }
    exists w1. split; [exact Hp|]. split; [exact Hq|]. split; [exact Hloop|].
    split; [exact Hout|]. split; [exact Hso|]. split; [exact Hse|].
    intros w0 Hreach. exact (handler_from e w0 w' 1 _ _ Hreach (Hloop 0%nat)).
Qed.
End DisruptionProps.

(** ** Content length *)

Module LengthProps.
Import Py Str Server StrProps ParseProps HandlerProps CycleProps RequestProps.
Import RespondProps GetFileProps.
Local Open Scope string_scope.
Local Open Scope bool_scope.

Lemma scan_headers_no_crlf lines host connection :
  Forall (λ l, has_crlf l = false) lines →
  has_crlf (default "" connection) = false →
  has_crlf (default "" (scan_headers lines host connection).2) = false.
Proof.
  intros Hlines. revert host connection.
  induction Hlines as [|header rest Hh _ IH]; intros host connection Hc; [exact Hc|].
  simpl. destruct (truthy (strip header)); [|exact Hc]. simpl.
  destruct (partition ":" header) as [[key found] v] eqn:Ep.
  destruct found; simpl; [|now apply IH].
  destruct (lower (strip key) =? "host"); [now apply IH|].
  destruct (lower (strip key) =? "connection"); [|now apply IH].
  apply IH. simpl. eapply strip_no_crlf, partition_no_crlf; eauto.
Qed.

(** The version and the directive of a parsed request contain no line
    break. *)
Lemma parse_text_no_crlf e raw w req w' :
  parse_text e raw w = (Ok (Some req), w') →
  has_crlf (version req) = false
  ∧ has_crlf (default "" (connection req)) = false.
Proof.
  unfold parse_text.
  pose proof (split_crlf_no_crlf (decode (plat e) raw)) as Hlines.
  destruct (split_crlf_cons (decode (plat e) raw)) as (l & ls & El).
  rewrite El in *. simpl length. simpl Nat.ltb. cbv iota. simpl hd. simpl tl.
  pose proof (split_ws_no_crlf l) as Hwords.
  destruct (split_ws l) as [|m [|u [|v [|]]]]; try discriminate.
  destruct (negb ((m =? "GET") || (m =? "HEAD"))); [discriminate|].
  inversion Hlines as [|? ? _ Hls]; subst.
  pose proof (scan_headers_no_crlf ls None None Hls eq_refl) as Hconn.
  destruct (scan_headers ls None None) as [h c].
  destruct ((v =? "HTTP/1.1") && negb (truthy_opt h)); [discriminate|].
  intros E. simplify_eq/=. split; [|exact Hconn].
  rewrite !Forall_cons in Hwords. tauto.
Qed.

Lemma parse_request_no_crlf e w req w' :
  parse_request e w = (Ok (Some req), w') →
  has_crlf (version req) = false
  ∧ has_crlf (default "" (connection req)) = false.
Proof.
  unfold parse_request.
  destruct (recv_loop e (inbox w) "" w) as [[[raw|]|ex] w1]; try discriminate.
  apply parse_text_no_crlf.
Qed.

Lemma of_nat_reads_back (n : nat) :
  Nat.of_uint <$> NilZero.uint_of_string (of_nat n) = Some n.
Proof.
  unfold of_nat. rewrite NilZero.usu.
  - simpl. now rewrite DecimalNat.Unsigned.of_to.
  - intros H.
    assert (n = 0%nat) as ->
      by (rewrite <- (DecimalNat.Unsigned.of_to n), H; reflexivity).
    discriminate H.
Qed.

(** C5, as the code has it.  A response built by [respond] has a
    [Content-Length] field exactly when the body is not empty, and its
    value is then the length of the body in decimal.  In particular
    the response to a successful request for an existing file has
    [Content-Length] equal to the file's size when the method is GET
    and the file is not empty, and no [Content-Length] when the method
    is HEAD or the file is empty. *)
Theorem C5_content_length :
  (∀ status d version body content_type connection,
     header_safe status d version content_type connection →
     let values :=
       header_values "Content-Length"
         (respond status ("Date: " ++ d ++ crlf) version body content_type connection) in
     (body ≠ "" → values = [of_nat (len body)])
     ∧ (body = "" → values = [])
     ∧ Nat.of_uint <$> NilZero.uint_of_string (of_nat (len body)) = Some (len body))
  ∧ (∀ e w req w1 file data,
       platform_safe (plat e) →
       parse_request e w = (Ok (Some req), w1) →
       get_file e (uri req) = Ok file →
       open_read e file = Ok data →
       ∃ r, try_request e w = (Ok (Some r), w1)
            ∧ r_status r = OK
            ∧ r_body r = (if method req =? "GET" then data else "")
            ∧ header_values "Content-Length" (response_of e r w1)
              = if (method req =? "GET") && truthy data
                then [of_nat (len data)] else []).
Proof.
  split.
  - intros status d version body content_type connection Hsafe values.
    subst values. rewrite respond_length_values by assumption.
    split; [|split].
    + intros Hb. now apply truthy_true in Hb as ->.
    + now intros ->.
    + apply of_nat_reads_back.
  - intros e w req w1 file data [Hdate Htype] Hp Hf Ho.
    pose proof (parse_request_no_crlf _ _ _ _ Hp) as [Hv Hc].
    unfold try_request. rewrite Hp, Hf, Ho.
    eexists. split; [reflexivity|]. split; [reflexivity|]. split; [reflexivity|].
    unfold response_of. simpl.
    rewrite respond_length_values.
    + destruct (method req =? "GET"); reflexivity.
    + repeat split; try assumption; try apply Hdate.
      destruct (guess_type (plat e) file) as [t|] eqn:Eg; [|reflexivity].
      destruct (truthy t); [eapply Htype, Eg | reflexivity].
Qed.
End LengthProps.

(** ** Runs on the example site *)

Module Runs.
Import Py Str Server Example StrProps ParseProps HandlerProps CycleProps RequestProps.
Import RespondProps GetFileProps DisruptionProps LengthProps.
Local Open Scope string_scope.
Local Open Scope bool_scope.

(** A request under HTTP/1.0: the handler returns after one response.
    A request under HTTP/1.1 that does not ask to close, on a socket
    that becomes readable again: the handler goes on to the next
    request and returns after two responses. *)
Lemma C2_persistence_witness :
  handler served (connection [get "/" "HTTP/1.0" []] [true])
  = Some (Ok (),
          finally (sendall
                     (response_of served
                        (Reply OK "HTTP/1.0" "<html>hello</html>" "text/html" None)
                        (World 3 [] [true] [] [] [] [] 1 false))
                     (World 3 [] [true] [] [] [] [] 1 false)))
  ∧ ∃ w', handler served
            (connection [get "/" "HTTP/1.1" ["Host: x"];
                         get "/index.html" "HTTP/1.0" []] [true])
          = Some (Ok (), finally w')
          ∧ length (outbox w') = 2%nat
          ∧ waits w' = [Seconds 10].
Proof.
  split.
  - assert (Ht : try_request served
                   (tick (inc_active (connection [get "/" "HTTP/1.0" []] [true])))
                 = (Ok (Some (Reply OK "HTTP/1.0" "<html>hello</html>" "text/html" None)),
                    World 3 [] [true] [] [] [] [] 1 false))
      by (vm_compute; reflexivity).
    destruct (C2_persistence served (connection [get "/" "HTTP/1.0" []] [true]) _ _ _
                (reaches_here _ _) eq_refl Ht) as (_ & Hclose & _).
    destruct Hclose as (_ & _ & Hhandler & _); [left; reflexivity|].
    exact Hhandler.
  - pose (w0 := connection [get "/" "HTTP/1.1" ["Host: x"];
                            get "/index.html" "HTTP/1.0" []] [true]).
    eassert (Ht : try_request served (tick (inc_active w0))
                  = (Ok (Some (Reply OK "HTTP/1.1" "<html>hello</html>" "text/html" None)),
                     _))
      by (vm_compute; reflexivity).
    destruct (C2_persistence served w0 _ _ _ (reaches_here _ _) eq_refl Ht)
      as (_ & _ & Hidle).
    destruct Hidle as (_ & _ & _ & _ & Hready & _).
    { intros [H|[H|H]]; [discriminate H | discriminate H | simpl in H; lia]. }
    destruct (Hready eq_refl) as [_ Hnext].
    eexists. split; [apply (Hnext 1%nat); vm_compute; reflexivity|].
    split; reflexivity.
Defined.

(** Two requests under HTTP/1.1 on one connection, both served. *)
Example keep_alive_serves_two :
  ∃ w', handler served
          (connection [get "/" "HTTP/1.1" ["Host: x"];
                       get "/index.html" "HTTP/1.1" ["Host: x"; "Connection: close"]]
                      [true])
        = Some (Ok (), w')
        ∧ length (outbox w') = 2%nat ∧ waits w' = [Seconds 10]
        ∧ closed w' = true ∧ active w' = 0.
Proof. eexists. vm_compute. repeat split. Qed.

Lemma C10_bad_request_version_witness :
  ∃ response w',
    cycle served (connection [get "/" "HTTP/1.1" []] []) = (Ok Break, w')
    ∧ outbox w' = [response]
    ∧ startswith "HTTP/1.0 400 Bad Request" response = true.
Proof.
  eassert (Hp : parse_request served (tick (connection [get "/" "HTTP/1.1" []] []))
                = (Raise _, _)) by (vm_compute; reflexivity).
  destruct (C10_bad_request_version served _ _ _ eq_refl Hp)
    as (msg & Hmsg & _ & _ & Hc & Hstart).
  injection Hmsg as <-.
  eexists _, _. split; [exact Hc|]. split; [reflexivity | exact Hstart].
Defined.

Lemma C4_missing_host_witness :
  ∃ w', parse_text served (get "/nowhere" "HTTP/1.1" ["Connection: keep-alive"])
          (connection [] [])
        = (Raise MissingHostHeader, w').
Proof.
  apply (C4_missing_host served
           (get "/nowhere" "HTTP/1.1" ["Connection: keep-alive"])
           (connection [] []) "GET" "/nowhere").
  - reflexivity.
  - unfold carries_host. apply (bool_decide_unpack _). vm_compute. exact I.
Defined.

(** C4, as the specification words it, fails for a method other than
    GET and HEAD: the request has version HTTP/1.1 and no [Host]
    field, and parsing fails with UnsupportedMethod. *)
Lemma C4_counterexample :
  split_ws (hd "" (split_crlf ("POST / HTTP/1.1" ++ crlf ++ crlf)))
  = ["POST"; "/"; "HTTP/1.1"]
  ∧ ¬ carries_host (tl (split_crlf ("POST / HTTP/1.1" ++ crlf ++ crlf)))
  ∧ (parse_request served (connection ["POST / HTTP/1.1" ++ crlf ++ crlf] [])).1
    = Raise (UnsupportedMethod "POST")
  ∧ UnsupportedMethod "POST" ≠ MissingHostHeader.
Proof.
  split; [reflexivity|].
  split; [unfold carries_host; apply (bool_decide_unpack _); vm_compute; exact I|].
  split; [vm_compute; reflexivity | discriminate].
Qed.

(** A server that is signalled at clock value 9.  On a fresh
    connection the peer closes in the middle of the request line: the
    handler replies 400 and returns.  On a connection opened later the
    signal arrives after the first chunk has been read: the handler
    returns without sending anything. *)
Lemma C9_connection_broken_witness :
  (∃ response w',
      handler (Env ascii_platform site "/srv/www" (Some 9%nat))
        (World 0 [Data "GET / HT"; Timeout; Data ""] [] [] [] [] [] 0 false)
      = Some (Ok (), w')
      ∧ outbox w' = [response]
      ∧ startswith "HTTP/1.0 400 Bad Request" response = true)
  ∧ (∃ w',
        handler (Env ascii_platform site "/srv/www" (Some 9%nat))
          (World 6 [Data "GET / HT"; Data ("TP/1.0" ++ crlf ++ crlf)] [] [] [] [] [] 0 false)
        = Some (Ok (), w')
        ∧ outbox w' = [] ∧ stdout w' = [] ∧ stderr w' = []
        ∧ closed w' = true).
Proof.
  pose (e := Env ascii_platform site "/srv/www" (Some 9%nat)).
  pose (w0 := World 0 [Data "GET / HT"; Timeout; Data ""] [] [] [] [] [] 0 false).
  pose (w0' := World 6 [Data "GET / HT"; Data ("TP/1.0" ++ crlf ++ crlf)]
                 [] [] [] [] [] 0 false).
  destruct (C9_connection_broken e (inc_active w0) [Data "GET / HT"; Timeout] [Data ""])
    as ((w1 & _ & _ & _ & Hstart & Hout & Hhandler) & _ & _ & _ & _ & Hcancel).
  - reflexivity.
  - repeat constructor; discriminate.
  - right. exists []. reflexivity.
  - reflexivity.
  - intros t [= <-]. simpl. lia.
  - split.
    + eexists _, _. split; [exact (Hhandler w0 (reaches_here _ _))|].
      split; [exact Hout | exact Hstart].
    + destruct (Hcancel (inc_active w0') [Data "GET / HT"] [Data ("TP/1.0" ++ crlf ++ crlf)])
        as (w1' & _ & _ & _ & Hout' & Hso' & Hse' & Hhandler').
      * reflexivity.
      * repeat constructor; discriminate.
      * reflexivity.
      * reflexivity.
      * exists 9%nat. split; [reflexivity | simpl; lia].
      * exists (finally w1'). split; [exact (Hhandler' w0' (reaches_here _ _))|].
        split; [exact Hout'|]. split; [exact Hso'|]. split; [exact Hse' | reflexivity].
Defined.

Lemma C5_content_length_witness :
  header_values "Content-Length"
    (respond OK ("Date: Thu, 01 Jan 1970 00:00:00 GMT" ++ crlf) "HTTP/1.1"
             "<html>hello</html>" "text/html" None)
  = ["18"]
  ∧ ∃ r w1,
      try_request served (connection [get "/" "HTTP/1.1" ["Host: x"]] [])
      = (Ok (Some r), w1)
      ∧ header_values "Content-Length" (response_of served r w1) = ["18"].
Proof.
  destruct C5_content_length as [Hrespond Hget].
  split.
  - apply (Hrespond OK "Thu, 01 Jan 1970 00:00:00 GMT" "HTTP/1.1"
             "<html>hello</html>" "text/html" None).
    + repeat split; reflexivity.
    + discriminate.
  - eassert (Hp : parse_request served (connection [get "/" "HTTP/1.1" ["Host: x"]] [])
                  = (Ok (Some _), _)) by (vm_compute; reflexivity).
    destruct (Hget served _ _ _ "/srv/www/index.html" "<html>hello</html>"
                ltac:(split; [reflexivity | intros f t; simpl;
                              destruct (contains ".html" f); intros [= <-]; reflexivity])
                Hp ltac:(vm_compute; reflexivity) ltac:(vm_compute; reflexivity))
      as (r & Hr & _ & _ & Hlen).
    exists r. eexists. split; [exact Hr | exact Hlen].
Defined.

(** C5, as the specification words it, fails for an existing file
    that is empty: the GET succeeds with 200 and the response has no
    [Content-Length] field, where the specification asks for one equal
    to the file's size. *)
Lemma C5_counterexample :
  Os.read_file site "/srv/www/empty.txt" = Some ""
  ∧ ∃ response w',
      handler served (connection [get "/empty.txt" "HTTP/1.0" []] [])
      = Some (Ok (), w')
      ∧ outbox w' = [response]
      ∧ startswith "HTTP/1.0 200 OK" response = true
      ∧ header_values "Content-Length" response = [].
Proof.
  split; [vm_compute; reflexivity|].
  eexists _, _. vm_compute. repeat split.
Qed.
End Runs.

(** ** The path resolver: the complete picture *)

Module ResolverProps.
Import Py Str PosixPath Server StrProps PathProps GetFileProps.
Local Open Scope string_scope.
Local Open Scope bool_scope.

(** *** Normal forms *)

Lemma Forall_removelast {A} (P : A → Prop) (l : list A) :
  Forall P l → Forall P (removelast l).
Proof.
  induction 1 as [|x l Hx Hl IH]; [constructor|].
  simpl. destruct l; [constructor|]. constructor; assumption.
Qed.

Lemma norm_step_components (n : nat) (acc : list string) (comp : string) :
  Forall (λ c, component c ∧ free_of sep c) acc → free_of sep comp →
  Forall (λ c, component c ∧ free_of sep c) (norm_step n acc comp).
Proof.
  intros Hacc Hcomp. unfold norm_step.
  destruct ((comp =? "") || (comp =? ".")) eqn:Hskip; [exact Hacc|].
  match goal with |- context [if ?b then _ else _] => destruct b end.
  - apply Forall_app. split; [exact Hacc|]. repeat constructor; [|exact Hcomp].
    unfold component. apply orb_false_elim in Hskip as [H1 H2].
    rewrite H2. destruct comp; [discriminate H1 | reflexivity].
  - now apply Forall_removelast.
Qed.

Lemma fold_norm_step_components (n : nat) (comps acc : list string) :
  Forall (λ c, component c ∧ free_of sep c) acc → Forall (free_of sep) comps →
  Forall (λ c, component c ∧ free_of sep c) (fold_left (norm_step n) comps acc).
Proof.
  intros Hacc Hcomps. revert acc Hacc.
  induction Hcomps as [|c comps Hc _ IH]; intros acc Hacc; [exact Hacc|].
  simpl. apply IH. now apply norm_step_components.
Qed.

(** [normpath] of a path that starts with one slash (or three and
    more) is in normal form. *)
Lemma normpath_normal (p : string) :
  initial_slashes p = 1%nat → normal (normpath p).
Proof.
  intros Hn. unfold normal, normpath. rewrite Hn.
  destruct p as [|c p]; [discriminate Hn|].
  change (negb (truthy (String c p))) with false. cbv iota.
  set (cs := fold_left (norm_step 1) (split_char sep (String c p)) []).
  change (truthy ("/" ++ Str.join "/" cs)) with true. cbv iota.
  rewrite split_path_join; [reflexivity|].
  apply fold_norm_step_components; [constructor | apply split_char_free].
Qed.

(** *** [commonpath] of a root and a path inside it *)

Lemma common_loop_prefix (a k : list string) :
  common_loop a (a ++ k) = Ok a.
Proof.
  induction a as [|c a IH]; [reflexivity|].
  simpl. rewrite String.eqb_refl, IH. reflexivity.
Qed.

Lemma compare_refl (s : string) : String.compare s s = Eq.
Proof.
  pose proof (String.compare_antisym s s) as H.
  destruct (String.compare s s); simpl in H; congruence.
Qed.

Lemma list_compare_prefix (a k : list string) :
  list_compare a (a ++ k) ≠ Gt.
Proof.
  induction a as [|c a IH]; [destruct k; discriminate|].
  simpl. now rewrite compare_refl.
Qed.

Lemma commonpath_of_inside (root p : string) :
  isabs root = true → isabs p = true → normal root → inside root p →
  commonpath [root; p] = Ok root.
Proof.
  intros Hr Hp Hnormal [k Hk]. unfold commonpath, py_min, py_max.
  simpl forallb. rewrite Hr, Hp. simpl negb. cbv iota. simpl map. simpl fold_left.
  rewrite Hk.
  pose proof (list_compare_prefix (split_path root) k) as Hle.
  rewrite list_compare_antisym in Hle.
  destruct (list_compare (split_path root ++ k) (split_path root)) eqn:Hc;
    simpl in Hle; [| congruence |].
  - pose proof (common_loop_prefix (split_path root) []) as Hself.
    rewrite List.app_nil_r in Hself. rewrite Hself. simpl. now rewrite <- Hnormal.
  - rewrite common_loop_prefix. simpl. now rewrite <- Hnormal.
Qed.

Lemma isfile_exists fs p : Os.isfile fs p = true → Os.exists_ fs p = true.
Proof.
  unfold Os.isfile, Os.exists_. destruct (Os.stat fs p) as [n|]; [|discriminate].
  intros _. apply bool_decide_eq_true. eauto.
Qed.

(** [get_file] on a candidate path inside a normal root. *)
Lemma get_file_inside e uri :
  isabs (ROOT_DIR e) = true → normal (ROOT_DIR e) →
  inside (ROOT_DIR e) (candidate e uri) →
  get_file e uri
  = if negb (Os.exists_ (fs e) (candidate e uri))
       || negb (Os.isfile (fs e) (candidate e uri)) then
      Raise (FileNotFoundError
               ((if uri =? "/" then "/index.html" else uri) ++ " not found in directory"))
    else if negb (Os.access_r (fs e) (candidate e uri)) then
      Raise (PermissionError "Permission denied")
    else Ok (candidate e uri).
Proof.
  intros Hroot Hnormal Hin. rewrite get_file_candidate.
  rewrite (commonpath_of_inside _ _ Hroot (isabs_candidate e uri Hroot) Hnormal Hin).
  unfold bind. now rewrite String.eqb_refl.
Qed.

(** X1.  With an absolute document root in normal form, [get_file]
    returns a path exactly when the candidate path of the URI lies
    inside the root and names a readable regular file; the path returned
    is the candidate path. *)
Theorem X1_get_file_ok_iff e uri file :
  isabs (ROOT_DIR e) = true → normal (ROOT_DIR e) →
  get_file e uri = Ok file
  ↔ file = candidate e uri
    ∧ inside (ROOT_DIR e) file
    ∧ Os.isfile (fs e) file = true
    ∧ Os.access_r (fs e) file = true.
Proof.
  intros Hroot Hnormal. split.
  - intros Hok. pose proof (isabs_candidate e uri Hroot) as Hfile.
    assert (Hin : inside (ROOT_DIR e) (candidate e uri)).
    { rewrite get_file_candidate in Hok.
      destruct (commonpath [ROOT_DIR e; candidate e uri]) as [common|] eqn:E;
        [|discriminate]. unfold bind in Hok.
      destruct (String.eqb_spec common (ROOT_DIR e)) as [Heq|]; [|discriminate].
      eapply commonpath_inside; eauto. }
    rewrite (get_file_inside e uri Hroot Hnormal Hin) in Hok.
    destruct (Os.exists_ (fs e) (candidate e uri)); [|discriminate].
    destruct (Os.isfile (fs e) (candidate e uri)) eqn:H1; [|discriminate].
    destruct (Os.access_r (fs e) (candidate e uri)) eqn:H2; [|discriminate].
    simpl in Hok. injection Hok as <-. auto.
  - intros (-> & Hin & H1 & H2).
    rewrite (get_file_inside e uri Hroot Hnormal Hin).
    now rewrite (isfile_exists _ _ H1), H1, H2.
Qed.

Lemma X1_get_file_ok_iff_witness :
  get_file Example.served "/index.html" = Ok "/srv/www/index.html".
Proof.
  apply (X1_get_file_ok_iff Example.served "/index.html" "/srv/www/index.html");
    [reflexivity | reflexivity |].
  split; [reflexivity|]. split; [exists ["index.html"]; reflexivity|].
  split; vm_compute; reflexivity.
Defined.

(** X2.  With an absolute document root in normal form and a candidate
    path inside it: a path that does not name a regular file (nothing
    there, or a directory) fails with FileNotFoundError, whose message
    names the URI (["/index.html"] for ["/"]); a regular file that is
    not readable fails with PermissionError [Permission denied].  The
    first test comes first: what is not a regular file is never reported
    as unreadable. *)
Theorem X2_get_file_failures e uri :
  isabs (ROOT_DIR e) = true → normal (ROOT_DIR e) →
  inside (ROOT_DIR e) (candidate e uri) →
  (Os.isfile (fs e) (candidate e uri) = false →
     get_file e uri
     = Raise (FileNotFoundError
                ((if uri =? "/" then "/index.html" else uri) ++ " not found in directory")))
  ∧ (Os.isfile (fs e) (candidate e uri) = true →
     Os.access_r (fs e) (candidate e uri) = false →
     get_file e uri = Raise (PermissionError "Permission denied")).
Proof.
  intros Hroot Hnormal Hin.
  rewrite (get_file_inside e uri Hroot Hnormal Hin). split.
  - intros ->. now rewrite orb_true_r.
  - intros H1 H2. now rewrite (isfile_exists _ _ H1), H1, H2.
Qed.

Lemma X2_get_file_failures_witness :
  get_file Example.served "/missing.txt"
  = Raise (FileNotFoundError "/missing.txt not found in directory")
  ∧ get_file Example.served ""
    = Raise (FileNotFoundError " not found in directory").
Proof.
  split.
  - apply (X2_get_file_failures Example.served "/missing.txt");
      [reflexivity | reflexivity | exists ["missing.txt"]; reflexivity
      | vm_compute; reflexivity ].
  - apply (X2_get_file_failures Example.served "");
      [reflexivity | reflexivity | exists []; reflexivity
      | vm_compute; reflexivity ].
Defined.

(** *** A root that starts with two slashes *)

Lemma join_components_head (cs : list string) (r : string) :
  Forall (λ c, component c ∧ free_of sep c) cs →
  Str.join "/" cs ≠ String sep r.
Proof.
  intros Hcs E. destruct Hcs as [|c cs [Hc Hfree] _]; [discriminate E|].
  assert (Hhead : ∃ r', c = String sep r').
  { destruct c as [|d c]; [discriminate Hc|].
    destruct cs; simpl in E; [|rewrite app_cons in E]; injection E as -> _; eauto. }
  destruct Hhead as [r' ->]. unfold free_of in Hfree. simpl in Hfree.
  discriminate Hfree.
Qed.

(** X3.  [commonpath] gives its result one leading slash, and [abspath]
    keeps a path's two leading slashes; so with a document root that
    starts with two slashes the comparison in [get_file] never succeeds
    and every URI fails with Forbidden. *)
Theorem X3_double_slash_root e uri :
  startswith "//" (ROOT_DIR e) = true →
  get_file e uri = Raise (PermissionError "Forbidden: out of bounds traversal").
Proof.
  intros Hroot.
  assert (Habs : isabs (ROOT_DIR e) = true).
  { unfold isabs. destruct (ROOT_DIR e) as [|c r]; [discriminate|].
    simpl in *. apply andb_true_iff in Hroot as [-> _]. reflexivity. }
  rewrite get_file_candidate.
  destruct (commonpath_two _ _ Habs (isabs_candidate e uri Habs)) as (cs & -> & H1 & _).
  unfold bind.
  destruct (String.eqb_spec ("/" ++ Str.join "/" cs) (ROOT_DIR e)) as [Heq|]; [|reflexivity].
  exfalso. destruct (ROOT_DIR e) as [|c [|d r]]; [discriminate Hroot | |].
  { change (Ascii.eqb sep c && false = true) in Hroot.
    rewrite andb_false_r in Hroot. discriminate Hroot. }
  change (Ascii.eqb sep c && (Ascii.eqb sep d && true) = true) in Hroot.
  apply andb_true_iff in Hroot as [_ Hd].
  rewrite andb_true_r in Hd. apply Ascii.eqb_eq in Hd as <-.
  change ("/" ++ Str.join "/" cs) with (String sep (Str.join "/" cs)) in Heq.
  injection Heq as _ Heq.
  apply (join_components_head cs r); [|exact Heq].
  destruct H1 as [k Hk]. pose proof (split_path_components (String c (String sep r))) as H.
  rewrite Hk in H. now apply Forall_app in H as [H _].
Qed.

Lemma X3_double_slash_root_witness :
  get_file (Env Example.ascii_platform Example.site "//srv/www" None) "/index.html"
  = Raise (PermissionError "Forbidden: out of bounds traversal").
Proof.
  apply (X3_double_slash_root
           (Env Example.ascii_platform Example.site "//srv/www" None) "/index.html").
  reflexivity.
Defined.

(** *** Leading slashes of the URI *)

(** X4.  [get_file] strips every leading slash of the URI: a URI other
    than ["/"] has the candidate path of the URI with one more slash in
    front, and the two resolve to the same file or both fail.  Only the
    URI ["/"] itself is mapped to the index page: two or more slashes
    name the root directory, like the empty URI. *)
Theorem X4_leading_slashes e uri :
  uri ≠ "" → uri ≠ "/" →
  candidate e ("/" ++ uri) = candidate e uri
  ∧ (∀ file, get_file e ("/" ++ uri) = Ok file ↔ get_file e uri = Ok file)
  ∧ candidate e "//" = candidate e "".
Proof.
  intros Hne Hslash.
  assert (Hc : candidate e ("/" ++ uri) = candidate e uri).
  { unfold candidate.
    destruct (String.eqb_spec ("/" ++ uri) "/") as [E|_].
    { destruct uri; [congruence | discriminate E]. }
    destruct (String.eqb_spec uri "/") as [E|_]; [congruence|].
    reflexivity. }
  split; [exact Hc|]. split; [|reflexivity].
  intros file. rewrite !get_file_candidate, Hc.
  destruct (commonpath [ROOT_DIR e; candidate e uri]) as [common|]; [|tauto].
  unfold bind.
  repeat match goal with |- context [if ?b then _ else _] =>
    lazymatch b with
    | String.eqb _ "/" => fail
    | _ => destruct b
    end end; split; intros H; try discriminate H; exact H.
Qed.

Lemma X4_leading_slashes_witness :
  candidate Example.served "//index.html" = candidate Example.served "/index.html".
Proof.
  apply (X4_leading_slashes Example.served "/index.html"); discriminate.
Defined.
End ResolverProps.

(** ** The parser: what is read and what is accepted *)

Module ParserProps.
Import Py Str Server StrProps ParseProps HandlerProps CycleProps RequestProps.
Import DisruptionProps RespondProps.
Local Open Scope string_scope.
Local Open Scope bool_scope.

(** *** What the receive loop returns *)

Lemma recv_loop_received e pending raw0 w raw w' :
  recv_loop e pending raw0 w = (Ok (Some raw), w') →
  contains terminator raw0 = false →
  ∃ before chunk,
    pending = (before ++ Data chunk :: inbox w')%list
    ∧ raw = raw0 ++ received before ++ chunk
    ∧ chunk ≠ ""
    ∧ contains terminator raw = true
    ∧ contains terminator (raw0 ++ received before) = false.
Proof.
  revert raw0 w. induction pending as [|ev rest IH]; intros raw0 w E Hraw0;
    destruct (stopped e w) eqn:Hs.
  - rewrite recv_loop_stopped in E by assumption. discriminate.
  - rewrite recv_loop_closed in E by assumption. discriminate.
  - rewrite recv_loop_stopped in E by assumption. discriminate.
  - destruct ev as [chunk|].
    + destruct (truthy chunk) eqn:Hc.
      * rewrite recv_loop_data in E by assumption.
        destruct (contains terminator (raw0 ++ chunk)) eqn:Hcont.
        -- simplify_eq. exists [], chunk. simpl received.
           rewrite app_nil_r. repeat split; auto. now apply truthy_true.
        -- destruct (IH _ _ E Hcont) as (before & chunk' & -> & -> & H1 & H2 & H3).
           exists (Data chunk :: before), chunk'. simpl received.
           rewrite !app_assoc in *. repeat split; auto.
      * apply truthy_false in Hc as ->.
        rewrite recv_loop_eof in E by assumption. discriminate.
    + rewrite recv_loop_timeout in E by assumption.
      destruct (IH _ _ E Hraw0) as (before & chunk' & -> & -> & H1 & H2 & H3).
      exists (Timeout :: before), chunk'. repeat split; auto.
Qed.

(** X5.  When the loop of [parse_request] returns header bytes, they are
    the chunks of the reads it made, each whole and in order; the last
    read delivered a non-empty chunk with which the bytes contain the
    terminator for the first time; and what the socket still has to
    deliver starts after that chunk, so bytes that follow the terminator
    in it are not given to a later call. *)
Theorem X5_received e w raw w' :
  recv_loop e (inbox w) "" w = (Ok (Some raw), w') →
  ∃ before chunk,
    inbox w = (before ++ Data chunk :: inbox w')%list
    ∧ raw = received before ++ chunk
    ∧ chunk ≠ ""
    ∧ contains terminator raw = true
    ∧ contains terminator (received before) = false.
Proof.
  intros E. destruct (recv_loop_received _ _ _ _ _ _ E eq_refl)
    as (before & chunk & H1 & H2 & H3 & H4 & H5).
  exists before, chunk. auto.
Qed.

Lemma X5_received_witness :
  ∃ before chunk,
    [Data "GET / HTTP/1.0"; Timeout; Data (crlf ++ crlf ++ "GET /next"); Data "x"]
    = (before ++ [Data chunk; Data "x"])%list
    ∧ contains terminator (received before ++ chunk) = true.
Proof.
  pose (w := World 0 [Data "GET / HTTP/1.0"; Timeout;
                      Data (crlf ++ crlf ++ "GET /next"); Data "x"]
                   [] [] [] [] [] 0 false).
  eassert (E : recv_loop Example.served (inbox w) "" w = (Ok (Some _), _))
    by (vm_compute; reflexivity).
  destruct (X5_received _ _ _ _ E) as (before & chunk & H1 & H2 & _ & H4 & _).
  exists before, chunk. split; [exact H1 | rewrite <- H2; exact H4].
Defined.

(** *** The header fields *)

Lemma field_value_partition name header key found v :
  partition ":" header = (key, found, v) →
  field_value name header
  = if found && (lower (strip key) =? name) then Some (strip v) else None.
Proof. intros E. unfold field_value. now rewrite E. Qed.

Lemma last_field_cons name header block :
  last_field name (header :: block)
  = match last_field name block with
    | Some v => Some v
    | None => field_value name header
    end.
Proof.
  unfold last_field. change (omap (field_value name) (header :: block))
    with (match field_value name header with
          | Some y => y :: omap (field_value name) block
          | None => omap (field_value name) block
          end).
  destruct (field_value name header) as [y|]; [|now destruct (last _)].
  now rewrite last_cons.
Qed.

Lemma scan_headers_last lines host connection :
  scan_headers lines host connection
  = (match last_field "host" (header_block lines) with
     | Some v => Some v
     | None => host
     end,
     match last_field "connection" (header_block lines) with
     | Some v => Some v
     | None => connection
     end).
Proof.
  revert host connection. induction lines as [|header rest IH];
    intros host connection; [reflexivity|].
  simpl scan_headers. simpl header_block.
  destruct (truthy (strip header)); [|reflexivity]. simpl negb. cbv iota.
  rewrite !last_field_cons.
  destruct (partition ":" header) as [[key found] v] eqn:Ep.
  rewrite (field_value_partition "host" _ _ _ _ Ep),
    (field_value_partition "connection" _ _ _ _ Ep).
  destruct found; simpl negb; cbv iota; simpl andb.
  - destruct (String.eqb_spec (lower (strip key)) "host") as [Hk|Hk].
    + rewrite Hk. change ("host" =? "connection") with false. cbv iota.
      rewrite IH.
      destruct (last_field "host" (header_block rest)),
        (last_field "connection" (header_block rest)); reflexivity.
    + destruct (String.eqb_spec (lower (strip key)) "connection") as [Hc|Hc];
        rewrite IH;
        destruct (last_field "host" (header_block rest)),
          (last_field "connection" (header_block rest)); reflexivity.
  - rewrite IH.
    destruct (last_field "host" (header_block rest)),
      (last_field "connection" (header_block rest)); reflexivity.
Qed.

(** X6.  The loop of [parse_request] over the header lines finds, for
    [Host] and for [Connection], the stripped value of the last field
    of that name in the header block (the lines before the first blank
    one); names are compared without regard to case and surrounding
    white space, lines without a colon are skipped, and lines after the
    blank line are not looked at. *)
Theorem X6_scan_headers lines :
  scan_headers lines None None
  = (last_field "host" (header_block lines),
     last_field "connection" (header_block lines)).
Proof.
  rewrite scan_headers_last.
  destruct (last_field "host" (header_block lines)),
    (last_field "connection" (header_block lines)); reflexivity.
Qed.

Lemma scan_headers_fresh lines :
  scan_headers lines None None
  = (last_field "host" (header_block lines),
     last_field "connection" (header_block lines)).
Proof.
  rewrite scan_headers_last.
  destruct (last_field "host" (header_block lines)),
    (last_field "connection" (header_block lines)); reflexivity.
Qed.

Lemma supported_method (m : string) :
  (m =? "GET") || (m =? "HEAD") = true ↔ m = "GET" ∨ m = "HEAD".
Proof. now rewrite orb_true_iff, !String.eqb_eq. Qed.

(** X7.  Parsing complete header bytes succeeds exactly when the first
    line consists of three fields separated by white space, the first
    is [GET] or [HEAD] in upper case, and, if the third is [HTTP/1.1],
    the header block has a [Host] field whose last occurrence is not
    empty.  The request returned has the three fields (the URI
    percent-decoded) and the last [Host] and [Connection] values; the
    world is left as it was. *)
Theorem X7_parse_text_ok e raw w req w' :
  parse_text e raw w = (Ok (Some req), w')
  ↔ ∃ m u v,
      split_ws (hd "" (split_crlf (decode (plat e) raw))) = [m; u; v]
      ∧ (m = "GET" ∨ m = "HEAD")
      ∧ (v = "HTTP/1.1" →
         truthy_opt
           (last_field "host" (header_block (tl (split_crlf (decode (plat e) raw)))))
         = true)
      ∧ req = Request m (unquote (plat e) u) v
                (last_field "host" (header_block (tl (split_crlf (decode (plat e) raw)))))
                (last_field "connection"
                   (header_block (tl (split_crlf (decode (plat e) raw)))))
      ∧ w' = w.
Proof.
  unfold parse_text.
  destruct (split_crlf_cons (decode (plat e) raw)) as (l & ls & ->).
  simpl length. simpl Nat.ltb. cbv iota. simpl hd. simpl tl.
  rewrite scan_headers_fresh.
  split.
  - destruct (split_ws l) as [|m [|u [|v [|]]]]; try discriminate.
    destruct ((m =? "GET") || (m =? "HEAD")) eqn:Hm; [|discriminate].
    simpl negb. cbv iota.
    destruct (String.eqb_spec v "HTTP/1.1") as [Hv|Hv];
      destruct (truthy_opt (last_field "host" (header_block ls))) eqn:Hh;
      simpl; try discriminate; intros E; simplify_eq;
      exists m, u; eexists; (split; [reflexivity|]);
      (split; [now apply supported_method|]); repeat split; congruence.
  - intros (m & u & v & -> & Hm & Hh & -> & ->).
    apply supported_method in Hm. rewrite Hm. simpl negb. cbv iota.
    destruct (String.eqb_spec v "HTTP/1.1") as [Hv|Hv]; [|reflexivity].
    now rewrite (Hh Hv).
Qed.

Lemma X7_parse_text_ok_witness :
  parse_text Example.served
    (Example.get "/a%20b" "HTTP/1.1" ["host: first"; "HOST : second"; "Accept"])
    (Example.connection [] [])
  = (Ok (Some (Request "GET" "/a%20b" "HTTP/1.1" (Some "second") None)),
     Example.connection [] []).
Proof.
  apply X7_parse_text_ok. exists "GET", "/a%20b", "HTTP/1.1".
  split; [reflexivity|]. split; [now left|].
  split; [intros _; reflexivity|]. split; reflexivity.
Defined.

(** X8.  The response to a request that failed to parse, when the date
    contains no line break: the status line is
    [HTTP/1.0 400 Bad Request]; the header fields are [Date],
    [Content-Type: text/html], [Content-Length: 24] and
    [Connection: close], in this order; then the empty line and the
    fixed HTML body.  It is the one thing sent in that iteration, after
    which the loop ends. *)
Theorem X8_bad_request_response e w ex w1 :
  stopped e w = false →
  parse_request e (tick w) = (Raise ex, w1) →
  (∀ n, has_crlf (formatdate (plat e) n) = false) →
  ∃ response w2,
    cycle e w = (Ok Break, w2)
    ∧ outbox w2 = List.app (outbox w) [response]
    ∧ status_line response = "HTTP/1.0 400 Bad Request"
    ∧ header_lines response
      = ["Date: " ++ formatdate (plat e) (clock w1); "Content-Type: text/html";
         "Content-Length: 24"; "Connection: close"]
    ∧ response
      = unlines (status_line response :: header_lines response)
          (crlf ++ "<h1>400 Bad Request</h1>").
Proof.
  intros Hs Hp Hdate. destruct (parse_request_raises _ _ _ _ Hp) as [msg ->].
  pose proof (try_request_value_error _ _ _ _ Hp) as Ht.
  pose proof (cycle_closing _ _ _ _ Hs Ht eq_refl) as Hc.
  pose proof (try_request_untouched _ _ _ _ Ht) as (_ & Hout & _).
  assert (Hsafe : header_safe BAD_REQUEST (formatdate (plat e) (clock w1))
                    "HTTP/1.0" "text/html" None)
    by (repeat split; try reflexivity; apply Hdate).
  eexists _, _. split; [exact Hc|]. split; [simpl in *; now rewrite Hout|].
  unfold response_of. simpl.
  rewrite (respond_status_line _ _ _ _ _ _ Hsafe),
    (respond_header_lines _ _ _ _ _ _ Hsafe).
  split; [reflexivity|]. split; [reflexivity|].
  now rewrite respond_unlines.
Qed.

Lemma X8_bad_request_response_witness :
  ∃ response w2,
    cycle Example.served (Example.connection ["BREW /pot HTCPCP/1.0" ++ crlf ++ crlf] [])
    = (Ok Break, w2)
    ∧ outbox w2 = [response]
    ∧ header_lines response
      = ["Date: Thu, 01 Jan 1970 00:00:00 GMT"; "Content-Type: text/html";
         "Content-Length: 24"; "Connection: close"].
Proof.
  pose (w := Example.connection ["BREW /pot HTCPCP/1.0" ++ crlf ++ crlf] []).
  eassert (Hp : parse_request Example.served (tick w) = (Raise _, _))
    by (vm_compute; reflexivity).
  destruct (X8_bad_request_response Example.served w _ _ eq_refl Hp)
    as (response & w2 & Hc & Hout & _ & Hlines & _); [reflexivity|].
  exists response, w2. split; [exact Hc|]. split; [exact Hout | exact Hlines].
Defined.
End ParserProps.

(** ** The handler as a whole *)

Module ConnectionProps.
Import Py Str PosixPath Server StrProps ParseProps HandlerProps PathProps GetFileProps.
Import CycleProps RequestProps RespondProps LengthProps.
Local Open Scope string_scope.
Local Open Scope bool_scope.

(** *** The failures of a request are answered *)

Lemma get_file_raises e uri ex :
  isabs (Server.ROOT_DIR e) = true → get_file e uri = Raise ex →
  (∃ msg, ex = PermissionError msg) ∨ (∃ msg, ex = FileNotFoundError msg).
Proof.
  intros Hroot. rewrite get_file_candidate.
  destruct (commonpath_two _ _ Hroot (isabs_candidate e uri Hroot)) as (cs & -> & _).
  unfold bind.
  repeat match goal with |- context [if ?b then _ else _] => destruct b end;
    intros E; simplify_eq; eauto.
Qed.

(** X9.  With an absolute document root, once [parse_request] has
    returned a request no exception leaves the [try] statement of the
    loop.  [get_file] fails with a PermissionError or a
    FileNotFoundError only, which the [except] clauses turn into the
    replies 403 and 404 after printing the reason; and the file that
    [get_file] returns can be opened and read, which gives the reply
    200.  Each reply carries the request's version and directive. *)
Theorem X9_request_answered e w req w1 :
  isabs (Server.ROOT_DIR e) = true →
  parse_request e w = (Ok (Some req), w1) →
  ∃ r w2,
    try_request e w = (Ok (Some r), w2)
    ∧ r_version r = version req
    ∧ r_connection r = connection req
    ∧ match get_file e (uri req) with
      | Ok file =>
          ∃ data, open_read e file = Ok data
                  ∧ r_status r = OK
                  ∧ r_body r = (if method req =? "GET" then data else "")
                  ∧ w2 = w1
      | Raise (PermissionError msg) =>
          r_status r = FORBIDDEN ∧ w2 = print ("forbidden due to " ++ msg) w1
      | Raise (FileNotFoundError msg) =>
          r_status r = NOT_FOUND ∧ w2 = print ("not found due to " ++ msg) w1
      | Raise _ => False
      end.
Proof.
  intros Hroot Hp. unfold try_request. rewrite Hp.
  destruct (get_file e (uri req)) as [file|ex] eqn:Eg.
  - destruct (get_file_readable _ _ _ Eg) as [data Hd]. rewrite Hd.
    eexists _, _. split; [reflexivity|]. split; [reflexivity|].
    split; [reflexivity|]. exists data. repeat split.
  - destruct (get_file_raises _ _ _ Hroot Eg) as [[msg ->]|[msg ->]]; simpl;
      eexists _, _; repeat split.
Qed.

Lemma X9_request_answered_witness :
  ∃ r w2,
    try_request Example.served
      (Example.connection [Example.get "/../../etc/passwd" "HTTP/1.1" ["Host: x"]] [])
    = (Ok (Some r), w2)
    ∧ r_status r = FORBIDDEN
    ∧ r_version r = "HTTP/1.1".
Proof.
  pose (w := Example.connection
               [Example.get "/../../etc/passwd" "HTTP/1.1" ["Host: x"]] []).
  eassert (Hp : parse_request Example.served w
                = (Ok (Some (Request "GET" "/../../etc/passwd" "HTTP/1.1" (Some "x") None)),
                   _))
    by (vm_compute; reflexivity).
  destruct (X9_request_answered Example.served w _ _ eq_refl Hp)
    as (r & w2 & Ht & Hv & _ & Hg).
  exists r, w2. split; [exact Ht|]. split; [|exact Hv].
  assert (Eg : get_file Example.served "/../../etc/passwd"
               = Raise (PermissionError "Forbidden: out of bounds traversal"))
    by (vm_compute; reflexivity).
  simpl uri in Hg. rewrite Eg in Hg. exact (proj1 Hg).
Defined.

(** *** Every exit path *)

(** X10.  [handler] returns for every script of reads that ends with
    the peer closing, its loop ending within one more iteration than
    there are reads pending; and by whichever [break] the loop ends
    (shutdown, a cancelled read, a response that closes, an idle wait
    that runs out), the [finally] block has run: the socket is closed
    and the activity counter, incremented on entry, is back at the
    value it had. *)
Theorem X10_handler_finally e w :
  (0 ≤ active w)%Z →
  ∃ r w1,
    handler_loop (S (length (inbox w))) e (inc_active w) = Some (r, w1)
    ∧ handler e w = Some (r, finally w1)
    ∧ closed (finally w1) = true
    ∧ active (finally w1) = active w.
Proof.
  intros Ha.
  destruct (handler_loop_total (S (length (inbox (inc_active w)))) e (inc_active w))
    as [[r w1] El]; [lia|].
  assert (E : handler e w = Some (r, finally w1))
    by (unfold handler; now rewrite El).
  exists r, w1. split; [exact El|]. split; [exact E|].
  exact (handler_finally e w r _ Ha E).
Qed.

Lemma X10_handler_finally_witness :
  ∃ r w', handler (Env Example.ascii_platform Example.site "srv/www" None)
            (World 0 [Data ("GET / HTTP/1.0" ++ crlf ++ crlf)] [] [] [] [] [] 3 false)
          = Some (r, w')
          ∧ closed w' = true ∧ active w' = 3%Z.
Proof.
  destruct (X10_handler_finally (Env Example.ascii_platform Example.site "srv/www" None)
              (World 0 [Data ("GET / HTTP/1.0" ++ crlf ++ crlf)] [] [] [] [] [] 3 false))
    as (r & w1 & _ & E & Hc & Ha).
  - simpl. lia.
  - exists r, (finally w1). split; [exact E|]. split; [exact Hc | exact Ha].
Defined.

(** *** What is sent *)

Lemma try_request_inbox_le e w r w' :
  try_request e w = (r, w') → (length (inbox w') ≤ length (inbox w))%nat.
Proof.
  unfold try_request. intros E.
  destruct (parse_request e w) as [[[req|]|ex] w1] eqn:Ep;
    apply parse_request_inbox in Ep as [Ep _].
  - destruct (get_file e (uri req)) as [file|ex].
    + destruct (open_read e file) as [data|ex].
      * now simplify_eq.
      * apply on_exception_inbox in E. congruence.
    + apply on_exception_inbox in E. congruence.
  - now simplify_eq.
  - apply on_exception_inbox in E. congruence.
Qed.

(** One iteration sends nothing or one response, and never gives back
    what it read. *)
Lemma cycle_sends e w r w' :
  cycle e w = (r, w') →
  (length (inbox w') ≤ length (inbox w))%nat
  ∧ (outbox w' = outbox w ∨ ∃ response, outbox w' = List.app (outbox w) [response]).
Proof.
  unfold cycle, is_set. intros E.
  destruct (stopped e w); [simplify_eq; simpl; auto|].
  destruct (try_request e (tick w)) as [[[rep|]|ex] w1] eqn:Et;
    pose proof (try_request_inbox_le _ _ _ _ Et) as Hin;
    apply try_request_untouched in Et as (_ & Hout & _);
    simpl in Hin, Hout; try (simplify_eq; split; [lia | left; congruence]).
  assert (Hsent : outbox (sendall (response_of e rep w1) w1)
                  = List.app (outbox w) [response_of e rep w1])
    by (simpl; now rewrite Hout).
  destruct (must_close rep); [simplify_eq; split; [simpl; lia | eauto]|].
  destruct (stopped e (sendall (response_of e rep w1) w1));
    unfold select in E; simpl in E; destruct (readable w1) as [|[] ?];
    simpl in E; simplify_eq; (split; [simpl; lia | right; eexists; exact Hsent]).
Qed.

Lemma handler_loop_sends fuel e w r w' :
  handler_loop fuel e w = Some (r, w') →
  ∃ sent, outbox w' = List.app (outbox w) sent
          ∧ (length sent + length (inbox w') ≤ S (length (inbox w)))%nat.
Proof.
  revert w. induction fuel as [|fuel IH]; intros w E; [discriminate|].
  simpl in E. destruct (cycle e w) as [[[]|ex] w1] eqn:Ec.
  - simplify_eq. destruct (cycle_sends _ _ _ _ Ec) as [Hin [Hout|[resp Hout]]].
    + exists []. rewrite List.app_nil_r. split; [exact Hout | simpl; lia].
    + exists [resp]. split; [exact Hout | simpl; lia].
  - pose proof (cycle_continue _ _ _ Ec) as Hlt.
    destruct (cycle_sends _ _ _ _ Ec) as [_ Hout].
    destruct (IH _ E) as (sent & Hsent & Hlen).
    destruct Hout as [Hout|[resp Hout]]; rewrite Hout in Hsent.
    + exists sent. split; [exact Hsent | lia].
    + exists (resp :: sent). rewrite <- List.app_assoc in Hsent.
      split; [exact Hsent | simpl; lia].
  - simplify_eq. destruct (cycle_sends _ _ _ _ Ec) as [Hin [Hout|[resp Hout]]].
    + exists []. rewrite List.app_nil_r. split; [exact Hout | simpl; lia].
    + exists [resp]. split; [exact Hout | simpl; lia].
Qed.

(** X11.  What [handler] has sent when it returns extends what had been
    sent before, and the responses it added are at most one more than
    the reads it made: an iteration sends at most one response, and
    every iteration followed by another has made a read. *)
Theorem X11_responses_bounded e w r w' :
  handler e w = Some (r, w') →
  ∃ sent, outbox w' = List.app (outbox w) sent
          ∧ (length sent + length (inbox w') ≤ S (length (inbox w)))%nat.
Proof.
  unfold handler. intros E.
  destruct (handler_loop _ e (inc_active w)) as [[r1 w1]|] eqn:El; [|discriminate].
  simplify_eq. apply handler_loop_sends in El as (sent & Hsent & Hlen).
  exists sent. split; [exact Hsent | exact Hlen].
Qed.

Lemma X11_responses_bounded_witness :
  ∃ sent, (length sent ≤ 2)%nat
          ∧ ∃ r w', handler Example.served
                      (Example.connection
                         [Example.get "/" "HTTP/1.1" ["Host: x"] ++
                          Example.get "/index.html" "HTTP/1.1" ["Host: x"]] [true; true])
                    = Some (r, w')
                    ∧ outbox w' = sent.
Proof.
  pose (w := Example.connection
               [Example.get "/" "HTTP/1.1" ["Host: x"] ++
                Example.get "/index.html" "HTTP/1.1" ["Host: x"]] [true; true]).
  destruct (handler Example.served w) as [[r w']|] eqn:E;
    [|vm_compute in E; discriminate E].
  destruct (X11_responses_bounded _ _ _ _ E) as (sent & Hsent & Hlen).
  exists sent. split; [simpl in Hlen; lia|]. exists r, w'. split; [exact E|].
  exact Hsent.
Defined.

(** *** Requests for what cannot be served *)

(** X12.  When the request parses and path resolution fails (absolute
    root, date without line break), the iteration sends one response
    and the loop ends: the status line is the request's version followed
    by [403 Forbidden] for a PermissionError and by [404 Not Found] for
    a FileNotFoundError, with the fixed HTML body of 22 bytes.  Its
    [Connection] field is the request's directive under HTTP/1.1 and is
    absent otherwise: a request that asked for [keep-alive] is told
    [keep-alive], although the connection is closed. *)
Theorem X12_resolution_failure e w req w1 ex :
  isabs (Server.ROOT_DIR e) = true →
  (∀ n, has_crlf (formatdate (plat e) n) = false) →
  stopped e w = false →
  parse_request e (tick w) = (Ok (Some req), w1) →
  get_file e (uri req) = Raise ex →
  ∃ response w2,
    cycle e w = (Ok Break, w2)
    ∧ outbox w2 = List.app (outbox w) [response]
    ∧ status_line response
      = version req ++ (match ex with
                        | PermissionError _ => " 403 Forbidden"
                        | _ => " 404 Not Found"
                        end)
    ∧ header_values "Content-Length" response = ["22"]
    ∧ header_values "Connection" response
      = if (version req =? "HTTP/1.1") && truthy_opt (connection req)
        then [default "" (connection req)] else [].
Proof.
  intros Hroot Hdate Hs Hp Hg.
  destruct (parse_request_no_crlf _ _ _ _ Hp) as [Hv Hc].
  pose proof (parse_request_untouched _ _ _ _ Hp) as (_ & Hout & _).
  assert (Ht : ∃ status body msg,
             try_request e (tick w)
             = (Ok (Some (Reply status (version req) body "text/html" (connection req))),
                print msg w1)
             ∧ (400 <=? value status)%nat = true
             ∧ Nat.eqb (value status) 400 = false
             ∧ has_crlf (phrase status) = false
             ∧ " " ++ of_nat (value status) ++ " " ++ phrase status
               = match ex with
                 | PermissionError _ => " 403 Forbidden"
                 | _ => " 404 Not Found"
                 end
             ∧ len body = 22%nat ∧ truthy body = true).
  { unfold try_request. rewrite Hp, Hg.
    destruct (get_file_raises _ _ _ Hroot Hg) as [[msg ->]|[msg ->]]; simpl;
      eexists _, _, _; repeat split. }
  destruct Ht as (status & body & msg & Ht & Hge & Hne & Hph & Hline & Hlen & Hbody).
  assert (Hclose : must_close (Reply status (version req) body "text/html" (connection req))
                   = true)
    by (apply must_close_closing; right; right; now apply Nat.leb_le).
  pose proof (cycle_closing _ _ _ _ Hs Ht Hclose) as Hcycle.
  assert (Hsafe : header_safe status (formatdate (plat e) (clock (print msg w1)))
                    (version req) "text/html" (connection req))
    by (repeat split; auto).
  eexists _, _. split; [exact Hcycle|].
  split; [simpl in *; now rewrite Hout|].
  unfold response_of. simpl r_status. simpl r_version. simpl r_body.
  simpl r_content_type. simpl r_connection.
  rewrite (respond_status_line _ _ _ _ _ _ Hsafe),
    (respond_length_values _ _ _ _ _ _ Hsafe),
    (respond_connection_values _ _ _ _ _ _ Hsafe).
  rewrite Hbody, Hlen, Hne. split; [now rewrite <- Hline|]. split; reflexivity.
Qed.

Lemma X12_resolution_failure_witness :
  ∃ response w2,
    cycle Example.served
      (Example.connection
         [Example.get "/missing.txt" "HTTP/1.1" ["Host: x"; "Connection: keep-alive"]]
         [true])
    = (Ok Break, w2)
    ∧ outbox w2 = [response]
    ∧ status_line response = "HTTP/1.1 404 Not Found"
    ∧ header_values "Connection" response = ["keep-alive"].
Proof.
  pose (w := Example.connection
               [Example.get "/missing.txt" "HTTP/1.1" ["Host: x"; "Connection: keep-alive"]]
               [true]).
  eassert (Hp : parse_request Example.served (tick w) = (Ok (Some _), _))
    by (vm_compute; reflexivity).
  eassert (Hg : get_file Example.served "/missing.txt" = Raise _)
    by (vm_compute; reflexivity).
  destruct (X12_resolution_failure Example.served w _ _ _ eq_refl
              ltac:(reflexivity) eq_refl Hp Hg)
    as (response & w2 & Hc & Hout & Hline & _ & Hconn).
  exists response, w2. split; [exact Hc|]. split; [exact Hout|].
  split; [exact Hline | exact Hconn].
Defined.
End ConnectionProps.

(** ** Start-up *)

Module StartupProps.
Import Py Str PosixPath Startup StrProps PathProps ResolverProps.
Local Open Scope string_scope.
Local Open Scope bool_scope.

Lemma isabs_abspath_cwd (cwd p : string) :
  isabs cwd = true → isabs (abspath cwd p) = true.
Proof.
  intros Hcwd. unfold abspath. destruct (isabs p) eqn:Hp.
  - now apply isabs_normpath.
  - now apply isabs_normpath, isabs_join.
Qed.

Lemma normpath_two_slashes (q : string) :
  initial_slashes q = 2%nat → startswith "//" (normpath q) = true.
Proof.
  intros Hn. unfold normpath. rewrite Hn.
  destruct q as [|c q]; [discriminate Hn | reflexivity].
Qed.

Lemma normpath_abs_normal (q : string) :
  isabs q = true → startswith "//" (normpath q) = false → normal (normpath q).
Proof.
  intros Hq Hone. destruct (initial_slashes_abs q Hq) as [Hn|Hn].
  - now apply normpath_normal.
  - rewrite (normpath_two_slashes q Hn) in Hone. discriminate Hone.
Qed.

Lemma abspath_normal (cwd p : string) :
  isabs cwd = true → startswith "//" (abspath cwd p) = false →
  normal (abspath cwd p).
Proof.
  intros Hcwd. unfold abspath. destruct (isabs p) eqn:Hp.
  - now apply normpath_abs_normal.
  - apply normpath_abs_normal. now apply isabs_join.
Qed.

(** The root that [parse_args] tests is made by [abspath]. *)
Lemma parse_args_outcome int fs argv :
  (∃ ex, parse_args int fs argv = Crashed ex)
  ∨ ∃ port p,
      parse_args int fs argv
      = if negb (Os.isdir fs (abspath (Os.getcwd fs) p)) then
          Exited 1 ("Error: Root directory '" ++ abspath (Os.getcwd fs) p
                    ++ "' does not exist.")
        else Started (Config port (abspath (Os.getcwd fs) p)).
Proof.
  unfold parse_args.
  destruct (match flag_value "-port" (tl argv) with
            | Some v => s ←! v; int s
            | None => Ok (PORT (defaults fs))
            end) as [port|ex]; [|eauto].
  destruct (flag_value "-document_root" (tl argv)) as [[v|ex]|]; simpl; eauto.
Qed.

(** X13.  When [parse_args] lets the server start and the working
    directory is absolute, the document root it has set is an absolute
    path that names a directory, and, unless it starts with two
    slashes, is in normal form: what the path resolver needs of it.
    When [parse_args] exits, the exit code is 1. *)
Theorem X13_parse_args_root int fs argv :
  isabs (Os.getcwd fs) = true →
  (∀ c, parse_args int fs argv = Started c →
     isabs (ROOT_DIR c) = true
     ∧ Os.isdir fs (ROOT_DIR c) = true
     ∧ (startswith "//" (ROOT_DIR c) = false → normal (ROOT_DIR c)))
  ∧ (∀ code message, parse_args int fs argv = Exited code message → code = 1).
Proof.
  intros Hcwd.
  destruct (parse_args_outcome int fs argv) as [[ex ->]|(port & p & ->)];
    [split; intros; discriminate|].
  destruct (Os.isdir fs (abspath (Os.getcwd fs) p)) eqn:Hdir; simpl; split;
    intros; simplify_eq; auto.
  simpl. split; [now apply isabs_abspath_cwd|]. split; [exact Hdir|].
  now apply abspath_normal.
Qed.

Lemma X13_parse_args_root_witness :
  parse_args (λ _, Ok 8000) Example.site ["server.py"; "-document_root"; "srv/./www/"]
  = Started (Config 8080 "/srv/www")
  ∧ normal "/srv/www".
Proof.
  assert (E : parse_args (λ _, Ok 8000) Example.site
                ["server.py"; "-document_root"; "srv/./www/"]
              = Started (Config 8080 "/srv/www")) by (vm_compute; reflexivity).
  split; [exact E|].
  destruct (X13_parse_args_root (λ _, Ok 8000) Example.site
              ["server.py"; "-document_root"; "srv/./www/"] eq_refl) as [H _].
  destruct (H _ E) as (_ & _ & Hn). apply Hn. reflexivity.
Defined.

(** *** Flags without a value *)

Lemma index_last (flag : string) (pre : list string) :
  index flag pre = None → index flag (pre ++ [flag]) = Some (length pre).
Proof.
  induction pre as [|a pre IH]; simpl.
  - now rewrite String.eqb_refl.
  - destruct (a =? flag); [discriminate|].
    destruct (index flag pre); [discriminate|]. intros _. now rewrite IH.
Qed.

Lemma flag_value_last (flag : string) (pre : list string) :
  index flag pre = None →
  flag_value flag (pre ++ [flag]) = Some (Raise (IndexError "list index out of range")).
Proof.
  intros H. unfold flag_value. rewrite (index_last _ _ H).
  rewrite lookup_ge_None_2; [reflexivity|]. rewrite List.length_app. simpl. lia.
Qed.

(** X14.  A flag given as the last argument has no value to read: when
    [-port] or, [-port] being absent, [-document_root] comes last and
    not before, [parse_args] ends with an IndexError, before the root
    directory is tested.  A port that [int] rejects ends it with the
    exception of [int], whatever the root is. *)
Theorem X14_parse_args_crash int fs prog pre :
  (index "-port" pre = None →
     parse_args int fs (prog :: pre ++ ["-port"])
     = Crashed (IndexError "list index out of range"))
  ∧ (index "-port" pre = None → index "-document_root" pre = None →
     parse_args int fs (prog :: pre ++ ["-document_root"])
     = Crashed (IndexError "list index out of range"))
  ∧ (∀ v ex rest, index "-port" pre = None → int v = Raise ex →
     parse_args int fs (prog :: pre ++ "-port" :: v :: rest) = Crashed ex).
Proof.
  split; [|split].
  - intros Hp. unfold parse_args. simpl tl. now rewrite (flag_value_last _ _ Hp).
  - intros Hp Hr. unfold parse_args. simpl tl.
    assert (Hport : flag_value "-port" (pre ++ ["-document_root"]) = None).
    { unfold flag_value.
      assert (index "-port" (pre ++ ["-document_root"]) = None) as ->; [|reflexivity].
      clear Hr. induction pre as [|a pre IH]; [reflexivity|]. simpl in *.
      destruct (a =? "-port"); [discriminate|].
      destruct (index "-port" pre); [discriminate|]. now rewrite IH. }
    rewrite Hport. now rewrite (flag_value_last _ _ Hr).
  - intros v ex rest Hp Hint. unfold parse_args. simpl tl.
    assert (Hport : flag_value "-port" (pre ++ "-port" :: v :: rest) = Some (Ok v)).
    { unfold flag_value.
      assert (index "-port" (pre ++ "-port" :: v :: rest) = Some (length pre)) as ->.
      { clear Hint. induction pre as [|a pre IH]; [reflexivity|]. simpl in *.
        destruct (a =? "-port"); [discriminate|].
        destruct (index "-port" pre); [discriminate|]. now rewrite IH. }
      rewrite lookup_app_r by lia.
      replace (S (length pre) - length pre)%nat with 1%nat by lia. reflexivity. }
    rewrite Hport. simpl. now rewrite Hint.
Qed.

Lemma X14_parse_args_crash_witness :
  parse_args (λ _, Raise (ValueError "invalid literal for int()")) Example.site
    ["server.py"; "-document_root"; "/srv/www"; "-port"]
  = Crashed (IndexError "list index out of range").
Proof.
  apply (X14_parse_args_crash _ Example.site "server.py" ["-document_root"; "/srv/www"]).
  reflexivity.
Defined.
End StartupProps.

(** ** Framing of responses and idle waits *)

Module FramingProps.
Import Py Str Server StrProps ParseProps HandlerProps CycleProps RespondProps.
Local Open Scope string_scope.
Local Open Scope bool_scope.

(** X15.  Read back from its bytes, a response built by [respond] from
    arguments without line breaks has the status line
    [<version> <code> <reason>], then the fields [Date] and
    [Content-Type], then [Content-Length] (when the body is not empty)
    and [Connection] (when one is emitted), in this order, then the
    empty line.  After it come the bytes of the body, except for status
    204, after which nothing comes, although [Content-Length] is still
    announced for a body that is not empty. *)
Theorem X15_respond_framing status d version body content_type connection :
  header_safe status d version content_type connection →
  let response :=
    respond status ("Date: " ++ d ++ crlf) version body content_type connection in
  status_line response = version ++ " " ++ of_nat (value status) ++ " " ++ phrase status
  ∧ (∃ length_field connection_field,
       header_lines response
       = ("Date: " ++ d) :: ("Content-Type: " ++ content_type)
           :: List.app length_field connection_field
       ∧ length_field
         = (if truthy body then ["Content-Length: " ++ of_nat (len body)] else [])
       ∧ (connection_field = []
          ∨ ∃ directive, connection_field = ["Connection: " ++ directive]))
  ∧ response
    = unlines (status_line response :: header_lines response)
        (crlf ++ (if Nat.eqb (value status) 204 then "" else body)).
Proof.
  intros Hsafe response. subst response.
  rewrite (respond_status_line _ _ _ _ _ _ Hsafe),
    (respond_header_lines _ _ _ _ _ _ Hsafe).
  split; [reflexivity|]. split.
  - eexists _, _. split; [reflexivity|]. split; [reflexivity|].
    destruct ((version =? "HTTP/1.1") && truthy_opt connection);
      [eauto | destruct (Nat.eqb (value status) 400); eauto].
  - apply respond_unlines.
Qed.

Lemma X15_respond_framing_witness :
  respond NO_CONTENT ("Date: " ++ "Thu, 01 Jan 1970 00:00:00 GMT" ++ crlf) "HTTP/1.1"
    "ignored" "text/plain" (Some "close")
  = unlines ["HTTP/1.1 204 No Content"; "Date: Thu, 01 Jan 1970 00:00:00 GMT";
             "Content-Type: text/plain"; "Content-Length: 7"; "Connection: close"]
      crlf.
Proof.
  destruct (X15_respond_framing NO_CONTENT "Thu, 01 Jan 1970 00:00:00 GMT" "HTTP/1.1"
              "ignored" "text/plain" (Some "close"))
    as (Hline & _ & Hbytes); [repeat split; reflexivity|].
  rewrite Hbytes. reflexivity.
Defined.

(** *** The idle waits *)

Lemma stopped_signalled e w : stopped e w = true → stop_at e ≠ None.
Proof. unfold stopped. destruct (stop_at e); [discriminate|]. discriminate. Qed.

Lemma cycle_waits e w r w' :
  cycle e w = (r, w') →
  waits w' = waits w
  ∨ ∃ t, waits w' = List.app (waits w) [t]
         ∧ ((t = Tenth ∧ stop_at e ≠ None)
            ∨ t = Seconds (Activity.keepalive_timeout (active w))).
Proof.
  unfold cycle, is_set. intros E.
  destruct (stopped e w); [simplify_eq; auto|].
  destruct (try_request e (tick w)) as [[[rep|]|ex] w1] eqn:Et;
    apply try_request_untouched in Et as (_ & _ & Hwaits & Hact & _);
    simpl in Hwaits, Hact; try (simplify_eq; left; congruence).
  destruct (must_close rep); [simplify_eq; left; simpl; congruence|].
  right.
  destruct (stopped e (sendall (response_of e rep w1) w1)) eqn:Hs;
    [apply stopped_signalled in Hs|];
    unfold select in E; simpl in E; destruct (readable w1) as [|[] ?];
    simpl in E; simplify_eq; simpl; rewrite Hwaits; eexists; split;
    try reflexivity; unfold keepalive_timeout; simpl; rewrite ?Hact; auto.
Qed.

Lemma handler_loop_waits fuel e w r w' :
  handler_loop fuel e w = Some (r, w') →
  ∃ ts, waits w' = List.app (waits w) ts
        ∧ Forall (λ t, (t = Tenth ∧ stop_at e ≠ None)
                       ∨ t = Seconds (Activity.keepalive_timeout (active w))) ts.
Proof.
  revert w. induction fuel as [|fuel IH]; intros w E; [discriminate|].
  simpl in E. destruct (cycle e w) as [[[]|ex] w1] eqn:Ec.
  - simplify_eq. destruct (cycle_waits _ _ _ _ Ec) as [H|(t & H & Ht)].
    + exists []. rewrite List.app_nil_r. auto.
    + exists [t]. auto.
  - pose proof (cycle_active _ _ _ _ Ec) as Hact.
    destruct (IH _ E) as (ts & Hts & Hall). rewrite Hact in Hall.
    destruct (cycle_waits _ _ _ _ Ec) as [H|(t & H & Ht)]; rewrite H in Hts.
    + exists ts. auto.
    + exists (t :: ts). rewrite <- List.app_assoc in Hts. auto.
  - simplify_eq. destruct (cycle_waits _ _ _ _ Ec) as [H|(t & H & Ht)].
    + exists []. rewrite List.app_nil_r. auto.
    + exists [t]. auto.
Qed.

(** X16.  Every idle wait of a handler uses the timeout that
    [keepalive_timeout] gives for the counter as the handler has
    incremented it, or 0.1 when the shutdown flag is set: on a
    connection that no other handler accompanies, [select] is never
    called with another timeout, never with more than 10 seconds, and
    never with 0.1 when no signal arrives. *)
Theorem X16_idle_timeouts e w r w' :
  handler e w = Some (r, w') →
  ∃ ts, waits w' = List.app (waits w) ts
        ∧ Forall (λ t, t = Tenth
                       ∨ t = Seconds (Activity.keepalive_timeout (active w + 1))) ts
        ∧ Forall (λ t, match t with Seconds n => (2 ≤ n ≤ 10)%Z | Tenth => True end) ts
        ∧ (stop_at e = None → Forall (λ t, t ≠ Tenth) ts).
Proof.
  unfold handler. intros E.
  destruct (handler_loop _ e (inc_active w)) as [[r1 w1]|] eqn:El; [|discriminate].
  simplify_eq. apply handler_loop_waits in El as (ts & Hts & Hall).
  exists ts. split; [exact Hts|]. simpl in Hall.
  unfold Activity.inc_active in Hall.
  split; [|split].
  - eapply Forall_impl; [exact Hall|]. intros t [[-> _]| ->]; auto.
  - eapply Forall_impl; [exact Hall|]. intros t [[-> _]| ->]; [exact I|].
    unfold Activity.keepalive_timeout.
    repeat match goal with |- context [(?a <? ?b)%Z] => destruct (a <? b)%Z end; lia.
  - intros Hnone. eapply Forall_impl; [exact Hall|].
    intros t [[_ Hsig]| ->]; [contradiction | discriminate].
Qed.

Lemma X16_idle_timeouts_witness :
  ∃ r w', handler Example.served
            (World 0 [Data (Example.get "/" "HTTP/1.1" ["Host: x"]);
                      Data (Example.get "/" "HTTP/1.1" ["Host: x"])]
                   [true; false] [] [] [] [] 4 false)
          = Some (r, w')
          ∧ waits w' = [Seconds 5; Seconds 5].
Proof.
  pose (w := World 0 [Data (Example.get "/" "HTTP/1.1" ["Host: x"]);
                      Data (Example.get "/" "HTTP/1.1" ["Host: x"])]
                   [true; false] [] [] [] [] 4 false).
  destruct (handler Example.served w) as [[r w']|] eqn:E;
    [|vm_compute in E; discriminate E].
  destruct (X16_idle_timeouts _ _ _ _ E) as (ts & Hts & _).
  exists r, w'. split; [exact E|].
  vm_compute in E. injection E as _ <-. reflexivity.
Defined.
End FramingProps.

(** ** Shutdown and served files *)

Module ServingProps.
Import Py Str Server StrProps ParseProps HandlerProps CycleProps RespondProps.
Import GetFileProps LengthProps.
Local Open Scope string_scope.
Local Open Scope bool_scope.

(** X17.  A handler whose loop starts an iteration after the shutdown
    flag was set leaves the loop at once: it reads nothing more from
    the socket and sends nothing more, and [handler], entered after the
    flag was set, only closes the socket. *)
Theorem X17_shutdown e w t :
  stop_at e = Some t → (t ≤ clock w)%nat →
  (∀ fuel, handler_loop (S fuel) e w = Some (Ok (), tick w))
  ∧ ∃ w', handler e w = Some (Ok (), w')
          ∧ outbox w' = outbox w ∧ inbox w' = inbox w ∧ closed w' = true.
Proof.
  intros Ht Hle.
  assert (Hs : ∀ w0, clock w0 = clock w → stopped e w0 = true).
  { intros w0 Hc. unfold stopped. rewrite Ht, Hc. now apply Nat.leb_le. }
  split.
  - intros fuel. apply handler_loop_break, cycle_stopped. now apply Hs.
  - unfold handler. simpl handler_loop.
    rewrite (cycle_stopped e (inc_active w)) by now apply Hs.
    eexists. split; [reflexivity|]. repeat split.
Qed.

Lemma X17_shutdown_witness :
  ∃ w', handler (Env Example.ascii_platform Example.site "/srv/www" (Some 0%nat))
          (Example.connection [Example.get "/" "HTTP/1.1" ["Host: x"]] [true])
        = Some (Ok (), w')
        ∧ outbox w' = [].
Proof.
  destruct (X17_shutdown (Env Example.ascii_platform Example.site "/srv/www" (Some 0%nat))
              (Example.connection [Example.get "/" "HTTP/1.1" ["Host: x"]] [true]) 0)
    as (_ & w' & E & Hout & _); [reflexivity | simpl; lia |].
  exists w'. split; [exact E | exact Hout].
Defined.

Lemma open_read_data e file data :
  open_read e file = Ok data → Os.read_file (fs e) file = Some data.
Proof.
  unfold open_read, Os.read_file.
  destruct (Os.stat (fs e) file) as [[d []| |]|]; intros; simplify_eq; reflexivity.
Qed.

(** X18.  The response to a request that parses and resolves to a file
    (libraries without line breaks in dates and types): the status line
    is the request's version followed by [200 OK]; [Content-Type] is
    the guessed type, or [application/octet-stream] when none or an
    empty one is guessed; and after the empty line come the bytes of
    the file for GET and nothing for HEAD. *)
Theorem X18_served_file e w req w1 file :
  platform_safe (plat e) →
  parse_request e w = (Ok (Some req), w1) →
  get_file e (uri req) = Ok file →
  ∃ data r,
    Os.read_file (fs e) file = Some data
    ∧ try_request e w = (Ok (Some r), w1)
    ∧ status_line (response_of e r w1) = version req ++ " 200 OK"
    ∧ header_values "Content-Type" (response_of e r w1)
      = [match guess_type (plat e) file with
         | Some guessed => if truthy guessed then guessed else "application/octet-stream"
         | None => "application/octet-stream"
         end]
    ∧ response_of e r w1
      = unlines (status_line (response_of e r w1) :: header_lines (response_of e r w1))
          (crlf ++ (if method req =? "GET" then data else "")).
Proof.
  intros [Hdate Htype] Hp Hf.
  destruct (parse_request_no_crlf _ _ _ _ Hp) as [Hv Hc].
  destruct (get_file_readable _ _ _ Hf) as [data Ho].
  exists data. unfold try_request. rewrite Hp, Hf, Ho.
  eexists. split; [now apply open_read_data|].
  split; [reflexivity|].
  unfold response_of. simpl r_status. simpl r_version. simpl r_body.
  simpl r_content_type. simpl r_connection.
  set (ct := match guess_type (plat e) file with
             | Some guessed => if truthy guessed then guessed else "application/octet-stream"
             | None => "application/octet-stream"
             end).
  assert (Hsafe : header_safe OK (formatdate (plat e) (clock w1)) (version req) ct
                    (connection req)).
  { repeat split; auto. subst ct.
    destruct (guess_type (plat e) file) as [t|] eqn:Eg; [|reflexivity].
    destruct (truthy t); [eapply Htype, Eg | reflexivity]. }
  rewrite (respond_status_line _ _ _ _ _ _ Hsafe).
  split; [reflexivity|]. split.
  - unfold header_values. rewrite (respond_header_lines _ _ _ _ _ _ Hsafe).
    destruct (truthy (if method req =? "GET" then data else "")),
      ((version req =? "HTTP/1.1") && truthy_opt (connection req)); reflexivity.
  - rewrite (respond_header_lines _ _ _ _ _ _ Hsafe). apply respond_unlines.
Qed.

Lemma X18_served_file_witness :
  ∃ r w1,
    try_request Example.served
      (Example.connection ["HEAD /empty.txt HTTP/1.0" ++ crlf ++ crlf] [])
    = (Ok (Some r), w1)
    ∧ header_values "Content-Type" (response_of Example.served r w1)
      = ["application/octet-stream"].
Proof.
  pose (w := Example.connection ["HEAD /empty.txt HTTP/1.0" ++ crlf ++ crlf] []).
  eassert (Hp : parse_request Example.served w = (Ok (Some _), _))
    by (vm_compute; reflexivity).
  eassert (Hf : get_file Example.served "/empty.txt" = Ok _)
    by (vm_compute; reflexivity).
  destruct (X18_served_file Example.served w _ _ _
              ltac:(split; [reflexivity | intros f t; simpl;
                            destruct (contains ".html" f); intros [= <-]; reflexivity])
              Hp Hf)
    as (data & r & _ & Ht & _ & Hct & _).
  exists r. eexists. split; [exact Ht | exact Hct].
Defined.
End ServingProps.
